(** * sentient-lora: the development proxy and the chat client

    A shallow embedding of the JavaScript sources of the repository:

    - [TargetStore]: the module exporting [updateTarget] / [getTarget];
    - [ViteConfig]: vite.config.js, with the module variable [proxyTarget],
      [updateProxyTarget], the [/@vite/proxy-update] middleware and the
      [/api] proxy entry with its [proxyReq] listener;
    - [App]: src/App.jsx, the configuration form ([handleApiSubmit]);
    - [ChatInterface]: src/components/ChatInterface.jsx ([fetchModels],
      [handleSubmit]).

    JavaScript strings are [string]s, JavaScript values are the inductive
    [JS.JSValue], a thrown exception is the left summand of [JS.result], React
    state is a record that every handler takes and gives back, and what
    a handler sends over the network is the list of requests it returns. *)

From Stdlib Require Import String Ascii List Bool ZArith QArith Lia DecimalString.
Import ListNotations.
Local Open Scope string_scope.
Set Warnings "-register-all".

(** ** JavaScript values and the built-ins the sources call *)

Module JS.

Inductive JSValue : Type :=
| JUndefined
| JNull
| JBool (b : bool)
| JNumber (q : Q)
| JString (s : string)
| JArray (items : list JSValue)
| JObject (props : list (string * JSValue)).

Inductive JSError : Type :=
| SyntaxError (message : string)
| TypeError (message : string)
| Error (message : string).

Definition message (e : JSError) : string :=
  match e with
  | SyntaxError m | TypeError m | Error m => m
  end.

(** A computation that returns or throws. *)
Definition result (A : Type) : Type := (JSError + A)%type.

Definition ret {A : Type} (a : A) : result A := inr a.
Definition throw {A : Type} (e : JSError) : result A := inl e.
Definition bind {A B : Type} (c : result A) (k : A -> result B) : result B :=
  match c with
  | inl e => inl e
  | inr a => k a
  end.

(** [ToBoolean]: the values [if (v)], [!v] and [a || b] treat as true. *)
Definition truthy (v : JSValue) : bool :=
  match v with
  | JUndefined | JNull => false
  | JBool b => b
  | JNumber q => negb (Qeq_bool q 0)
  | JString s => negb (String.eqb s "")
  | JArray _ | JObject _ => true
  end.

Definition isArray (v : JSValue) : bool :=
  match v with
  | JArray _ => true
  | _ => false
  end.

(** The elements of an array. *)
Definition elements (v : JSValue) : list JSValue :=
  match v with
  | JArray items => items
  | _ => []
  end.

Fixpoint lookup (k : string) (props : list (string * JSValue)) : JSValue :=
  match props with
  | [] => JUndefined
  | (k', v) :: rest => if String.eqb k k' then v else lookup k rest
  end.

(** [v.k] for the property names the sources read ([target],
    [available_models], [response]): an own property of an object, and
    [undefined] on every other value but [undefined] and [null], where
    the access throws. *)
Definition get (v : JSValue) (k : string) : result JSValue :=
  match v with
  | JUndefined =>
      throw (TypeError ("Cannot read properties of undefined (reading '" ++ k ++ "')"))
  | JNull =>
      throw (TypeError ("Cannot read properties of null (reading '" ++ k ++ "')"))
  | JObject props => ret (lookup k props)
  | _ => ret JUndefined
  end.

(** [s.startsWith(p)] on strings. *)
Definition startsWith (s p : string) : bool := String.prefix p s.

(** The characters [String.prototype.trim] removes, in the 8-bit range:
    TAB, LF, VT, FF, CR, SP and NBSP. *)
Definition isWhiteSpace (c : ascii) : bool :=
  let n := nat_of_ascii c in
  ((9 <=? n) && (n <=? 13) || (n =? 32) || (n =? 160))%nat.

Fixpoint dropWhiteSpace (s : string) : string :=
  match s with
  | EmptyString => EmptyString
  | String c rest => if isWhiteSpace c then dropWhiteSpace rest else s
  end.

Fixpoint rev_string (s acc : string) : string :=
  match s with
  | EmptyString => acc
  | String c rest => rev_string rest (String c acc)
  end.

Definition trim (s : string) : string :=
  rev_string (dropWhiteSpace (rev_string (dropWhiteSpace s) "")) "".

(** [s.replace(/\/$/, '')]: one slash at the very end is removed. *)
Fixpoint stripTrailingSlash (s : string) : string :=
  match s with
  | EmptyString => EmptyString
  | String c rest =>
      match rest with
      | EmptyString => if Ascii.eqb c "/" then EmptyString else s
      | _ => String c (stripTrailingSlash rest)
      end
  end.

(** [s.replace(/^p/, '')] for a literal prefix [p]. *)
Definition stripPrefix (p s : string) : string :=
  if String.prefix p s
  then String.substring (String.length p) (String.length s - String.length p) s
  else s.

End JS.

Import JS.

Declare Scope js_scope.
Delimit Scope js_scope with js.
Notation "x <- c ;; k" := (JS.bind c (fun x => k))
  (at level 61, c at next level, right associativity) : js_scope.

(** ** The target store module *)

Module TargetStore.

Definition defaultTarget : string := "http://provider.gpufarm.xyz:31617".

(** [let currentTarget = process.env.VITE_API_URL || '...']: the module's
    single variable; [env] is the environment entry, absent or a string. *)
Definition init (env : option string) : JSValue :=
  match env with
  | Some s => if truthy (JString s) then JString s else JString defaultTarget
  | None => JString defaultTarget
  end.

Definition updateTarget (newTarget : JSValue) (currentTarget : JSValue) : JSValue :=
  newTarget.

Definition getTarget (currentTarget : JSValue) : JSValue := currentTarget.

(** A caller's view: a sequence of calls on the module. *)
Inductive call : Type :=
| CallUpdate (newTarget : JSValue)
| CallGet.

(** Runs the calls in order; gives the final variable and what each
    [getTarget] returned. *)
Fixpoint run (calls : list call) (currentTarget : JSValue) : JSValue * list JSValue :=
  match calls with
  | [] => (currentTarget, [])
  | CallUpdate v :: rest => run rest (updateTarget v currentTarget)
  | CallGet :: rest =>
      let (final, seen) := run rest currentTarget in
      (final, getTarget currentTarget :: seen)
  end.

End TargetStore.

(** ** vite.config.js: the target variable, the control middleware, the proxy *)

Module ViteConfig.

Definition defaultTarget : string := "http://provider.gpufarm.xyz:31617".

(** The test [!t.startsWith('http://') && !t.startsWith('https://')], which
    the sources write in [updateProxyTarget], in the [proxyReq] listener and
    in [handleApiSubmit]. *)
Definition lacksScheme (t : string) : bool :=
  negb (startsWith t "http://") && negb (startsWith t "https://").

Definition ensureScheme (t : string) : string :=
  if lacksScheme t then "http://" ++ t else t.

(** The mutable state of the configuration module: the module variable
    [proxyTarget] and the field [proxy.options.target] of the proxy server
    created from the ['/api'] entry ([target: defaultTarget]). *)
Record Server : Type := mkServer {
  proxyTarget : string;
  options_target : string
}.

Definition initial : Server :=
  {| proxyTarget := defaultTarget; options_target := defaultTarget |}.

(** [updateProxyTarget(newTarget)]. The call [newTarget.startsWith(...)]
    throws a TypeError on every value that is not a string ([undefined] and
    [null] have no properties, the other JSON values no such method), before
    the assignment is reached. *)
Definition updateProxyTarget (newTarget : JSValue) (st : Server) : result Server :=
  match newTarget with
  | JString s =>
      let s := if lacksScheme s then "http://" ++ s else s in
      ret {| proxyTarget := s; options_target := options_target st |}
  | JUndefined =>
      throw (TypeError "Cannot read properties of undefined (reading 'startsWith')")
  | JNull =>
      throw (TypeError "Cannot read properties of null (reading 'startsWith')")
  | _ => throw (TypeError "newTarget.startsWith is not a function")
  end.

(** An incoming request: [req.method], [req.url] and the chunks the ['data']
    events deliver, each already through [chunk.toString()]. *)
Record IncomingMessage : Type := mkIncoming {
  method : string;
  url : string;
  chunks : list string
}.

(** What [res.end] is given: nothing, or [JSON.stringify] of a value. *)
Inductive Payload : Type :=
| Empty
| Json (v : JSValue).

Record ServerResponse : Type := mkResponse {
  statusCode : Z;
  contentType : option string;
  payload : Payload
}.

(** [body += chunk.toString()] over the ['data'] events. *)
Definition readBody (cs : list string) : string :=
  fold_left String.append cs "".

(** [const { target } = v]: destructuring throws on [null] (and
    [undefined]); otherwise it reads the property. *)
Definition destructureTarget (v : JSValue) : result JSValue :=
  match v with
  | JNull =>
      throw (TypeError "Cannot destructure property 'target' of 'JSON.parse(...)' as it is null.")
  | JUndefined =>
      throw (TypeError "Cannot destructure property 'target' of 'JSON.parse(...)' as it is undefined.")
  | _ => get v "target"
  end.

Section Middleware.

(** [JSON.parse], the runtime's: the parsed value, or the SyntaxError it
    throws. *)
Variable JSON_parse : string -> result JSValue.

(** The body of the [try] in the ['end'] listener, up to the assignment. *)
Definition parseAndUpdate (body : string) (st : Server) : result Server :=
  (parsed <- JSON_parse body ;;
   target <- destructureTarget parsed ;;
   updateProxyTarget target st)%js.

(** The handler mounted on ['/@vite/proxy-update']. *)
Definition proxyUpdate (req : IncomingMessage) (st : Server) : ServerResponse * Server :=
  if String.eqb (method req) "POST" then
    let body := readBody (chunks req) in
    match parseAndUpdate body st with
    | inr st' =>
        ({| statusCode := 200;
            contentType := Some "application/json";
            payload := Json (JObject [("success", JBool true)]) |}, st')
    | inl error =>
        ({| statusCode := 400;
            contentType := Some "application/json";
            payload := Json (JObject [("error", JString (message error))]) |}, st)
    end
  else
    ({| statusCode := 405; contentType := None; payload := Empty |}, st).

End Middleware.

(** [rewrite: (path) => path.replace(/^\/api/, '')]. *)
Definition rewrite (path : string) : string := stripPrefix "/api" path.

(** The listener registered with [proxy.on('proxyReq', ...)]: it copies the
    module variable, with a scheme, into [proxy.options.target]. *)
Definition onProxyReq (st : Server) : Server :=
  if truthy (JString (proxyTarget st)) then
    let target := proxyTarget st in
    let target := if lacksScheme target then "http://" ++ target else target in
    {| proxyTarget := proxyTarget st; options_target := target |}
  else st.

(** What the proxy server works from when it builds the request it sends
    upstream: the method, the [target] of its options, and [req.url] as the
    middleware hands it over, that is after [rewrite]. The proxy server
    joins that url to the path of the target (a single [/] for a target with
    no path of its own), so an [out_path] of [/models] leaves as [/models],
    an empty one as [/] and [foo] as [/foo]. *)
Record OutgoingRequest : Type := mkOutgoing {
  out_method : string;
  out_target : string;
  out_path : string
}.

(** A request under the ['/api'] context, as the development server's proxy
    middleware and the proxy server it wraps handle it. The middleware
    applies [rewrite] to [req.url] and calls [proxy.web(req, res, {})]; the
    proxy server copies its options for the request, builds the outgoing
    request for the [target] of that copy, and only then emits ['proxyReq']
    with the built request as first argument (the listener above receives it
    as [proxyReq] and reads its headers). What the listener writes into
    [proxy.options.target] is therefore read by the request that follows. *)
Definition proxyApi (req : IncomingMessage) (st : Server) : option (OutgoingRequest * Server) :=
  if startsWith (url req) "/api" then
    let out := {| out_method := method req;
                  out_target := options_target st;
                  out_path := rewrite (url req) |} in
    Some (out, onProxyReq st)
  else None.

(** The requests the server sees, in arrival order. *)
Inductive Inbound : Type :=
| ToControl (req : IncomingMessage)
| ToApi (req : IncomingMessage).

Inductive Outcome : Type :=
| Answered (res : ServerResponse)
| Forwarded (out : OutgoingRequest)
| NotProxied.

Section Serve.

Variable JSON_parse : string -> result JSValue.

Definition step (i : Inbound) (st : Server) : Outcome * Server :=
  match i with
  | ToControl req =>
      let (res, st') := proxyUpdate JSON_parse req st in (Answered res, st')
  | ToApi req =>
      match proxyApi req st with
      | Some (out, st') => (Forwarded out, st')
      | None => (NotProxied, st)
      end
  end.

Fixpoint serve (inbound : list Inbound) (st : Server) : list Outcome * Server :=
  match inbound with
  | [] => ([], st)
  | i :: rest =>
      let (o, st') := step i st in
      let (os, st'') := serve rest st' in
      (o :: os, st'')
  end.

End Serve.

End ViteConfig.

(** ** The browser side: what [fetch] gives back *)

Module Fetch.

(** A response as the handlers read it: [status], the outcome of
    [response.text()] and the outcome of [response.json()]. *)
Record Response : Type := mkResponse {
  status : Z;
  text : result string;
  json : result JSValue
}.

(** [response.ok]: the status is in the range 200-299. *)
Definition ok (r : Response) : bool := ((200 <=? status r) && (status r <=? 299))%Z.

(** The promise [fetch] returns: rejected with an error, or resolved. *)
Definition Reply : Type := result Response.

(** A request a handler issues: [fetch(path, { method, body })], the body
    being [JSON.stringify] of a value when there is one. *)
Record Request : Type := mkRequest {
  path : string;
  req_method : string;
  req_body : option JSValue
}.

(** The number in a template literal. *)
Definition showStatus (n : Z) : string := DecimalString.NilZero.string_of_int (Z.to_int n).

End Fetch.

(** ** src/App.jsx *)

Module App.

Import Fetch.

(** [localStorage], as the list of its entries. *)
Definition Storage : Type := list (string * string).

Fixpoint getItem (k : string) (s : Storage) : option string :=
  match s with
  | [] => None
  | (k', v) :: rest => if String.eqb k k' then Some v else getItem k rest
  end.

Fixpoint removeItem (k : string) (s : Storage) : Storage :=
  match s with
  | [] => []
  | (k', v) :: rest =>
      if String.eqb k k' then removeItem k rest else (k', v) :: removeItem k rest
  end.

Definition setItem (k v : string) (s : Storage) : Storage := (k, v) :: removeItem k s.

(** The three [useState] cells of [App] and the storage they are read from. *)
Record State : Type := mkState {
  apiUrl : string;
  isConfiguring : bool;
  error : string;
  localStorage : Storage
}.

(** The first render: [localStorage.getItem('apiUrl') || ''] and
    [!localStorage.getItem('apiUrl')]. *)
Definition mount (s : Storage) : State :=
  let saved := match getItem "apiUrl" s with Some v => JString v | None => JNull end in
  {| apiUrl := match saved with JString v => v | _ => "" end;
     isConfiguring := negb (truthy saved);
     error := "";
     localStorage := s |}.

(** [apiUrl.replace(/\/$/, '')], then the scheme. *)
Definition formatUrl (apiUrl : string) : string :=
  let formattedUrl := stripTrailingSlash apiUrl in
  if ViteConfig.lacksScheme formattedUrl then "http://" ++ formattedUrl else formattedUrl.

Definition updateRequest (formattedUrl : string) : Request :=
  {| path := "/@vite/proxy-update";
     req_method := "POST";
     req_body := Some (JObject [("target", JString formattedUrl)]) |}.

Definition probeRequest : Request :=
  {| path := "/api/models"; req_method := "GET"; req_body := None |}.

(** The checks on the probe's reply, from [if (!response.ok)] to the test of
    [data.available_models]. *)
Definition checkProbe (reply : Reply) : result unit :=
  (response <- reply ;;
   _ <- (if negb (ok response)
         then (errorText <- text response ;;
               throw (Error "Could not connect to API"))
         else ret tt) ;;
   data <- json response ;;
   available_models <- get data "available_models" ;;
   if negb (truthy available_models) || negb (isArray available_models)
   then throw (Error "Invalid API response format")
   else ret tt)%js.

Section Submit.

(** [new URL(s)] returns, rather than throws. *)
Variable URL_valid : string -> bool.

(** The [try] block: the formatted URL when it runs to its end, the error
    when it throws, and in both cases the requests issued on the way. *)
Definition attempt (st : State) (updateReply probeReply : Reply)
  : result string * list Request :=
  let formattedUrl := formatUrl (apiUrl st) in
  if negb (URL_valid formattedUrl) then
    (throw (Error "Please enter a valid URL"), [])
  else
    match updateReply with
    | inl e => (throw e, [updateRequest formattedUrl])
    | inr _ =>
        ((_ <- checkProbe probeReply ;; ret formattedUrl)%js,
         [updateRequest formattedUrl; probeRequest])
    end.

Definition handleApiSubmit (st : State) (updateReply probeReply : Reply)
  : State * list Request :=
  let st := {| apiUrl := apiUrl st; isConfiguring := isConfiguring st;
               error := ""; localStorage := localStorage st |} in
  match attempt st updateReply probeReply with
  | (inr formattedUrl, sent) =>
      ({| apiUrl := formattedUrl;
          isConfiguring := false;
          error := error st;
          localStorage := setItem "apiUrl" formattedUrl (localStorage st) |}, sent)
  | (inl e, sent) =>
      ({| apiUrl := apiUrl st;
          isConfiguring := isConfiguring st;
          error := "Unable to connect to API: " ++ message e;
          localStorage := localStorage st |}, sent)
  end.

End Submit.

(** The probe's failures as the specification lists them: no connection, a
    status that is not OK, or a body without a parseable array under
    [available_models]. *)
Definition probeFails (reply : Reply) : bool :=
  match reply with
  | inl _ => true
  | inr response =>
      negb (ok response) ||
      match json response with
      | inl _ => true
      | inr data =>
          match get data "available_models" with
          | inr (JArray _) => false
          | _ => true
          end
      end
  end.

End App.

(** ** src/components/ChatInterface.jsx *)

Module ChatInterface.

Import Fetch.

(** A transcript entry, [{ role, content }]. *)
Record Message : Type := mkMessage {
  role : string;
  content : JSValue
}.

(** The [useState] cells of the component; [error] is [null] or a string. *)
Record State : Type := mkState {
  messages : list Message;
  input : string;
  loading : bool;
  models : list JSValue;
  selectedModel : JSValue;
  error : option string
}.

(** The first render. *)
Definition mount : State :=
  {| messages := []; input := ""; loading := false;
     models := []; selectedModel := JString ""; error := None |}.

Definition modelsRequest : Request :=
  {| path := "/api/models"; req_method := "GET"; req_body := None |}.

(** The [try] block of [fetchModels], up to the check of the data: the
    array under [available_models], or the error thrown. *)
Definition readModels (reply : Reply) : result (list JSValue) :=
  (response <- reply ;;
   _ <- (if negb (ok response)
         then
           let errorText :=
             match text response with
             | inr t => t
             | inl _ => "Could not read error response"
             end in
           throw (Error ("HTTP error! status: " ++ showStatus (status response)
                           ++ " - " ++ errorText))
         else ret tt) ;;
   data <- match json response with
           | inr d => ret d
           | inl _ => throw (Error "Failed to parse response as JSON")
           end ;;
   if negb (truthy data) then throw (Error "Invalid response format from server")
   else
     available_models <- get data "available_models" ;;
     if negb (truthy available_models) || negb (isArray available_models)
     then throw (Error "Invalid response format from server")
     else ret (elements available_models))%js.

(** [fetchModels], run once by the mount effect. *)
Definition fetchModels (reply : Reply) (st : State) : State :=
  let st := {| messages := messages st; input := input st; loading := loading st;
               models := models st; selectedModel := selectedModel st;
               error := None |} in
  match readModels reply with
  | inr items =>
      {| messages := messages st; input := input st; loading := loading st;
         models := items;
         selectedModel := match items with
                          | first :: _ => first
                          | [] => selectedModel st
                          end;
         error := error st |}
  | inl e =>
      {| messages := messages st; input := input st; loading := loading st;
         models := models st; selectedModel := selectedModel st;
         error := Some ("Failed to load models: " ++ message e) |}
  end.

(** The component returns the error panel when [error] is truthy. *)
Definition showsErrorPanel (st : State) : bool :=
  match error st with
  | Some e => truthy (JString e)
  | None => false
  end.

(** The body [JSON.stringify] is given in [handleSubmit]. *)
Record ChatRequest : Type := mkChatRequest {
  chat_messages : list Message;
  model : JSValue;
  temperature : Q;
  max_tokens : Z
}.

Definition fallback : string := "Sorry, there was an error processing your request.".

(** The guard [if (!input.trim() || !selectedModel) return;], negated. *)
Definition accepts (st : State) : bool :=
  negb (negb (truthy (JString (trim (input st)))) || negb (truthy (selectedModel st))).

Definition userMessage (st : State) : Message :=
  {| role := "user"; content := JString (input st) |}.

Definition appendMessage (m : Message) (st : State) : State :=
  {| messages := (messages st ++ [m])%list; input := input st; loading := loading st;
     models := models st; selectedModel := selectedModel st; error := error st |}.

(** [handleSubmit] up to the [await]: nothing when the guard returns,
    otherwise the state after the three setters and the body of the
    request to [/api/chat]. *)
Definition submit (st : State) : option (State * ChatRequest) :=
  if negb (truthy (JString (trim (input st)))) || negb (truthy (selectedModel st))
  then None
  else
    let userMessage := userMessage st in
    let st' := appendMessage userMessage st in
    Some ({| messages := messages st'; input := ""; loading := true;
             models := models st'; selectedModel := selectedModel st';
             error := error st' |},
          {| chat_messages := (messages st ++ [userMessage])%list;
             model := selectedModel st;
             temperature := 7 # 10;
             max_tokens := 1000 |}).

(** The rest of the [try], up to [const data = await response.json()]:
    the parsed body, or what is thrown to the [catch]. *)
Definition readData (reply : Reply) : result JSValue :=
  (response <- reply ;;
   _ <- (if negb (ok response)
         then throw (Error ("HTTP error! status: " ++ showStatus (status response)))
         else ret tt) ;;
   json response)%js.

(** The updater [prev => [...prev, { role: 'assistant', content:
    data.response }]] handed to [setMessages] on the success path. The
    handler only queues it; React calls it when it renders next, once the
    handler is through its [try] and [finally]. It is there that
    [data.response] is read, so what the read throws is thrown by the
    render, not to the [catch]. *)
Definition appendAnswer (data : JSValue) (prev : list Message) : result (list Message) :=
  (answer <- get data "response" ;;
   ret (prev ++ [{| role := "assistant"; content := answer |}])%list)%js.

(** The render that follows the handler throws: the reply went through the
    [try] and the queued updater cannot read [data.response]. No update of
    the handler's batch is shown then, and React takes the component down. *)
Definition renderThrows (reply : Reply) : bool :=
  match readData reply with
  | inr data =>
      match appendAnswer data [] with
      | inl _ => true
      | inr _ => false
      end
  | inl _ => false
  end.

(** [handleSubmit] after the [await]: [try], [catch] and [finally], and the
    render of what they queued. The state given back is the one the
    component shows next; when that render throws ([renderThrows]) it is the
    last state shown, the pending one. *)
Definition settle (reply : Reply) (st : State) : State :=
  match readData reply with
  | inl _ =>
      let st' := appendMessage {| role := "assistant"; content := JString fallback |} st in
      {| messages := messages st'; input := input st'; loading := false;
         models := models st'; selectedModel := selectedModel st'; error := error st' |}
  | inr data =>
      match appendAnswer data (messages st) with
      | inr shown =>
          {| messages := shown; input := input st; loading := false;
             models := models st; selectedModel := selectedModel st; error := error st |}
      | inl _ => st
      end
  end.

(** [onChange={(e) => setInput(e.target.value)}] on the compose box. *)
Definition setInput (value : string) (st : State) : State :=
  {| messages := messages st; input := value; loading := loading st;
     models := models st; selectedModel := selectedModel st; error := error st |}.

(** One whole run of [handleSubmit]: the state shown afterwards (see
    [settle]) and the request issued, if any. *)
Definition handleSubmit (reply : Reply) (st : State) : State * option ChatRequest :=
  match submit st with
  | None => (st, None)
  | Some (st', request) => (settle reply st', Some request)
  end.

(** The failures of the chat request the specification names: a network
    error, or a response that is not OK. *)
Definition chatFails (reply : Reply) : bool :=
  match reply with
  | inl _ => true
  | inr response => negb (ok response)
  end.

(** [onChange={(e) => setSelectedModel(e.target.value)}] on the selector. *)
Definition setSelectedModel (value : string) (st : State) : State :=
  {| messages := messages st; input := input st; loading := loading st;
     models := models st; selectedModel := JString value; error := error st |}.




(** What the user does on the panel. The three controls are disabled while
    a request is pending, so a submission runs to its end before the next
    event; after a render that throws the component is gone ([None]) and
    takes no further event. *)
Inductive Event : Type :=
| Typed (value : string)
| Selected (value : string)
| Submitted (reply : Reply).

Definition handle (e : Event) (st : State) : option State :=
  match e with
  | Typed value => Some (setInput value st)
  | Selected value => Some (setSelectedModel value st)
  | Submitted reply =>
      if accepts st && renderThrows reply then None
      else Some (fst (handleSubmit reply st))
  end.

Fixpoint run (events : list Event) (st : State) : option State :=
  match events with
  | [] => Some st
  | e :: rest =>
      match handle e st with
      | Some st' => run rest st'
      | None => None
      end
  end.

End ChatInterface.


(** ** The browser and the development server together *)

Module Session.

Import ViteConfig.

(** [s.toLowerCase()] in the 8-bit range: A-Z and the accented capitals. *)
Definition lowerChar (c : ascii) : ascii :=
  let n := nat_of_ascii c in
  if ((65 <=? n) && (n <=? 90)
      || (192 <=? n) && (n <=? 222) && negb (n =? 215))%nat
  then ascii_of_nat (n + 32)
  else c.

Fixpoint toLowerCase (s : string) : string :=
  match s with
  | EmptyString => EmptyString
  | String c rest => String (lowerChar c) (toLowerCase rest)
  end.

(** The path of a request url: what precedes the query or the fragment. *)
Fixpoint pathname (url : string) : string :=
  match url with
  | EmptyString => EmptyString
  | String c rest =>
      if Ascii.eqb c "?" || Ascii.eqb c "#" then EmptyString
      else String c (pathname rest)
  end.

(** The test the server's router makes for a middleware mounted with
    [use(route, fn)]: the path starts with the route, whatever the case of
    the letters, and the route ends there or is followed by [/] or [.]. *)
Definition mountedAt (route url : string) : bool :=
  let path := pathname url in
  String.eqb (toLowerCase (String.substring 0 (String.length route) path))
             (toLowerCase route)
  && match String.get (String.length route) path with
     | None => true
     | Some c => Ascii.eqb c "/" || Ascii.eqb c "."
     end.

Section Wire.

(** [JSON.stringify], the runtime's. *)
Variable JSON_stringify : JSValue -> string.

(** A request of the page as the development server receives it. (The
    router shortens [req.url] by the mount path before it calls a mounted
    handler; the control handler never reads it.) *)
Definition deliver (r : Fetch.Request) : IncomingMessage :=
  {| method := Fetch.req_method r;
     url := Fetch.path r;
     chunks := match Fetch.req_body r with
               | Some v => [JSON_stringify v]
               | None => []
               end |}.

(** The control middleware comes first and takes the requests under its
    mount path; the others go on to the proxy middleware. *)
Definition route (r : Fetch.Request) : Inbound :=
  if mountedAt "/@vite/proxy-update" (Fetch.path r)
  then ToControl (deliver r)
  else ToApi (deliver r).

End Wire.

(** A fragment of JSON, enough to build concrete runs: the text of an
    object with the one property [target], a string without escapes, and
    its reading. *)
Definition quote : string := String (ascii_of_nat 34) EmptyString.

Definition targetOpen : string := "{" ++ quote ++ "target" ++ quote ++ ":" ++ quote.
Definition targetClose : string := quote ++ "}".

Definition sampleStringify (v : JSValue) : string :=
  match v with
  | JObject [(k, JString s)] =>
      if String.eqb k "target" then targetOpen ++ s ++ targetClose else "null"
  | _ => "null"
  end.

Definition sampleParse (text : string) : result JSValue :=
  let n := String.length text in
  let a := String.length targetOpen in
  let b := String.length targetClose in
  if String.prefix targetOpen text
     && String.eqb (String.substring (n - b) b text) targetClose
     && (a + b <=? n)%nat
  then ret (JObject [("target", JString (String.substring a (n - a - b) text))])
  else if String.eqb text "null" then ret JNull
  else throw (SyntaxError "Unexpected token in JSON").

End Session.

(** ** The notions the specification words its properties with *)

Module Spec.

(** A target carries a scheme when it starts with [http://] or [https://]. *)
Definition carriesScheme (s : string) : Prop :=
  exists rest, s = "http://" ++ rest \/ s = "https://" ++ rest.

(** Last write wins: the value of the most recent [updateTarget] among the
    calls, the current one when there is none. *)
Definition latest (calls : list TargetStore.call) (current : JSValue) : JSValue :=
  fold_left (fun cur c =>
               match c with
               | TargetStore.CallUpdate v => v
               | TargetStore.CallGet => cur
               end) calls current.

(** The target a control request carries: the body parses, to an object,
    and its [target] is a string. *)
Definition targetOf (parsed : result JSValue) : option string :=
  match parsed with
  | inr (JObject props) =>
      match lookup "target" props with
      | JString s => Some s
      | _ => None
      end
  | _ => None
  end.

(** The models a listing carries: an object with an array under
    [available_models]. *)
Definition listedModels (data : JSValue) : option (list JSValue) :=
  match data with
  | JObject props =>
      match lookup "available_models" props with
      | JArray items => Some items
      | _ => None
      end
  | _ => None
  end.

(** A string of white space only. *)
Fixpoint allWhiteSpace (s : string) : bool :=
  match s with
  | EmptyString => true
  | String c rest => isWhiteSpace c && allWhiteSpace rest
  end.

(** The target an inbound request makes the control middleware accept. *)
Definition acceptedTarget (JSON_parse : string -> result JSValue)
  (i : ViteConfig.Inbound) : option string :=
  match i with
  | ViteConfig.ToControl req =>
      if String.eqb (ViteConfig.method req) "POST"
      then targetOf (JSON_parse (ViteConfig.readBody (ViteConfig.chunks req)))
      else None
  | ViteConfig.ToApi _ => None
  end.

(** The models a reply to the listing request carries: the fetch resolved,
    the status is OK, the body is JSON and lists models. *)
Definition listingOf (reply : Fetch.Reply) : option (list JSValue) :=
  match reply with
  | inl _ => None
  | inr response =>
      if Fetch.ok response then
        match Fetch.json response with
        | inr data => listedModels data
        | inl _ => None
        end
      else None
  end.

(** A submission of the form counts as validated when the formatted text
    is a URL, the control POST resolved and the probe passed. *)
Definition validated (URL_valid : string -> bool) (st : App.State)
  (updateReply probeReply : Fetch.Reply) : bool :=
  URL_valid (App.formatUrl (App.apiUrl st))
  && (match updateReply with inr _ => true | inl _ => false end)
  && negb (App.probeFails probeReply).



End Spec.

(** * Properties *)

Import Spec.

Import ViteConfig.

(** ** Strings *)

Lemma prefix_append (p t : string) : String.prefix p (p ++ t) = true.
Proof.
  induction p as [|c p IH]; simpl.
  - now destruct t.
  - destruct (ascii_dec c c) as [_|ne]; [exact IH | now elim ne].
Qed.

Lemma prefix_split (p s : string) :
  String.prefix p s = true -> exists t, s = p ++ t.
Proof.
  revert s; induction p as [|c p IH]; intros s H.
  - now exists s.
  - destruct s as [|d s]; simpl in H; [discriminate|].
    destruct (ascii_dec c d) as [->|]; [|discriminate].
    destruct (IH s H) as [t ->]. now exists t.
Qed.

Lemma startsWith_iff (s p : string) :
  startsWith s p = true <-> exists t, s = p ++ t.
Proof.
  unfold startsWith; split.
  - apply prefix_split.
  - intros [t ->]. apply prefix_append.
Qed.

Lemma lacksScheme_false (s : string) : lacksScheme s = false <-> carriesScheme s.
Proof.
  unfold lacksScheme, carriesScheme.
  rewrite andb_false_iff, !negb_false_iff, !startsWith_iff.
  split.
  - intros [[t H]|[t H]]; exists t; auto.
  - intros [t [H|H]]; [left|right]; now exists t.
Qed.

Lemma lacksScheme_true (s : string) : lacksScheme s = true <-> ~ carriesScheme s.
Proof.
  rewrite <- lacksScheme_false. destruct (lacksScheme s); split; intro H;
    try reflexivity; try discriminate; try (intro; discriminate).
  now elim H.
Qed.

Lemma lacksScheme_ensureScheme (s : string) : lacksScheme (ensureScheme s) = false.
Proof.
  unfold ensureScheme. destruct (lacksScheme s) eqn:E; [|exact E].
  apply lacksScheme_false. exists s. now left.
Qed.

Lemma ensureScheme_idempotent (s : string) :
  ensureScheme (ensureScheme s) = ensureScheme s.
Proof.
  unfold ensureScheme at 1. now rewrite lacksScheme_ensureScheme.
Qed.

Lemma stripTrailingSlash_append (t : string) : stripTrailingSlash (t ++ "/") = t.
Proof.
  induction t as [|c t IH]; [reflexivity|].
  cbn [String.append stripTrailingSlash]. rewrite IH.
  now destruct t.
Qed.


(** ** The target store *)

Lemma run_app (pre post : list TargetStore.call) (cur : JSValue) :
  TargetStore.run (pre ++ post)%list cur =
  (fst (TargetStore.run post (latest pre cur)),
   (snd (TargetStore.run pre cur) ++ snd (TargetStore.run post (latest pre cur)))%list).
Proof.
  revert cur; induction pre as [|c pre IH]; intro cur; simpl.
  - now destruct (TargetStore.run post cur).
  - destruct c as [v|]; simpl.
    + apply IH.
    + rewrite IH. now destruct (TargetStore.run pre cur).
Qed.

Lemma run_final (calls : list TargetStore.call) (cur : JSValue) :
  fst (TargetStore.run calls cur) = latest calls cur.
Proof.
  revert cur; induction calls as [|c calls IH]; intro cur; simpl; [reflexivity|].
  destruct c as [v|]; simpl.
  - apply IH.
  - rewrite <- IH. now destruct (TargetStore.run calls cur).
Qed.

(** C3, as the code has it. The setter of the store module,
    [updateTarget], replaces the variable with exactly the value it is given,
    whatever that value and whatever the variable held, and [getTarget]
    returns the variable: in every sequence of calls, each [getTarget] returns
    the argument of the most recent [updateTarget] before it (the initial
    value when there is none). The setter of the store the proxy reads,
    [updateProxyTarget], also replaces whatever was stored, but it normalises
    what it writes: for a string it stores the string with its scheme, and for
    any other value it throws before it assigns. *)
Theorem C3_last_write_wins :
  forall (pre post : list TargetStore.call) (u cur : JSValue),
    TargetStore.getTarget (TargetStore.updateTarget u cur) = u
    /\ snd (TargetStore.run (pre ++ TargetStore.CallGet :: post)%list cur)
       = (snd (TargetStore.run pre cur)
            ++ latest pre cur :: snd (TargetStore.run post (latest pre cur)))%list
    /\ snd (TargetStore.run (pre ++ [TargetStore.CallUpdate u; TargetStore.CallGet])%list cur)
       = (snd (TargetStore.run pre cur) ++ [u])%list
    /\ fst (TargetStore.run (pre ++ [TargetStore.CallUpdate u])%list cur) = u
    /\ (forall (s : string) (st : Server),
          (~ carriesScheme s ->
             updateProxyTarget (JString s) st
             = inr {| proxyTarget := "http://" ++ s; options_target := options_target st |})
          /\ (carriesScheme s ->
                updateProxyTarget (JString s) st
                = inr {| proxyTarget := s; options_target := options_target st |}))
    /\ (forall (st : Server),
          (forall s, u <> JString s) -> exists e, updateProxyTarget u st = inl e).
Proof.
  intros pre post u cur. repeat split.
  - rewrite run_app. simpl.
    now destruct (TargetStore.run post (latest pre cur)).
  - rewrite run_app. reflexivity.
  - rewrite run_final. unfold latest. rewrite fold_left_app. reflexivity.
  - intro H. apply lacksScheme_true in H. unfold updateProxyTarget. now rewrite H.
  - intro H. apply lacksScheme_false in H. unfold updateProxyTarget. now rewrite H.
  - intros st H. destruct u; simpl; try (eexists; reflexivity). now elim (H s).
Qed.

Lemma C3_last_write_wins_witness :
  updateProxyTarget (JString "a.example") initial
  = inr {| proxyTarget := "http://a.example"; options_target := defaultTarget |}
  /\ updateProxyTarget (JString "https://a.example") initial
     = inr {| proxyTarget := "https://a.example"; options_target := defaultTarget |}
  /\ exists e, updateProxyTarget (JNumber (9000 # 1)) initial = inl e.
Proof.
  destruct (C3_last_write_wins [] [] (JNumber (9000 # 1)) JNull)
    as [_ [_ [_ [_ [Hs Hn]]]]].
  split; [|split].
  - destruct (Hs "a.example" initial) as [H _].
    apply H. apply lacksScheme_true. reflexivity.
  - destruct (Hs "https://a.example" initial) as [_ H].
    apply H. exists "a.example". now right.
  - apply (Hn initial). intros s H. discriminate.
Defined.

(** C3 as worded fails on [updateProxyTarget]: handed ["a.example"], it
    stores ["http://a.example"], which is not the value it was given. *)
Lemma C3_setter_normalizes_counterexample :
  updateProxyTarget (JString "a.example") initial
  = inr {| proxyTarget := "http://a.example"; options_target := defaultTarget |}
  /\ "http://a.example" <> "a.example"
  /\ ~ (forall (u : JSValue) (st : Server),
          exists st', updateProxyTarget u st = inr st'
                      /\ JString (proxyTarget st') = u).
Proof.
  repeat split.
  - discriminate.
  - intro H. destruct (H (JString "a.example") initial) as [st' [H1 H2]].
    injection H1 as <-. discriminate.
Qed.

(** ** Normalisation of the target *)




(** The form applies the same rule, after it has removed one trailing
    slash. *)
Lemma formatUrl_scheme (s : string) :
  (~ carriesScheme (stripTrailingSlash s) ->
     App.formatUrl s = "http://" ++ stripTrailingSlash s)
  /\ (carriesScheme (stripTrailingSlash s) ->
        App.formatUrl s = stripTrailingSlash s).
Proof.
  unfold App.formatUrl. split; intro H.
  - apply lacksScheme_true in H. now rewrite H.
  - apply lacksScheme_false in H. now rewrite H.
Qed.

(** ** The control middleware *)

Section Control.

Variable JSON_parse : string -> result JSValue.

Lemma parseAndUpdate_cases (body : string) (st : Server) :
  match targetOf (JSON_parse body) with
  | Some s =>
      parseAndUpdate JSON_parse body st
      = inr {| proxyTarget := ensureScheme s; options_target := options_target st |}
  | None => exists e, parseAndUpdate JSON_parse body st = inl e
  end.
Proof.
  unfold parseAndUpdate, targetOf, JS.bind.
  destruct (JSON_parse body) as [e|parsed]; [now exists e|].
  destruct parsed as [| |b|q|s|items|props]; simpl; try (eexists; reflexivity).
  destruct (lookup "target" props) as [| |b|q|s|items|props']; simpl;
    first [reflexivity | eexists; reflexivity].
Qed.

Lemma proxyUpdate_post (req : IncomingMessage) (st : Server) :
  method req = "POST" ->
  match targetOf (JSON_parse (readBody (chunks req))) with
  | Some s =>
      proxyUpdate JSON_parse req st
      = ({| statusCode := 200;
            contentType := Some "application/json";
            payload := Json (JObject [("success", JBool true)]) |},
         {| proxyTarget := ensureScheme s; options_target := options_target st |})
  | None =>
      exists description,
        proxyUpdate JSON_parse req st
        = ({| statusCode := 400;
              contentType := Some "application/json";
              payload := Json (JObject [("error", JString description)]) |}, st)
  end.
Proof.
  intro Hm. unfold proxyUpdate. rewrite Hm. simpl.
  pose proof (parseAndUpdate_cases (readBody (chunks req)) st) as H.
  destruct (targetOf (JSON_parse (readBody (chunks req)))) as [s|].
  - now rewrite H.
  - destruct H as [e H]. rewrite H. now exists (message e).
Qed.

End Control.

(** C2. A POST to the control path whose body parses to an object with a
    string under [target] is answered 200 with [{success: true}], and the
    store then holds that string, normalised. A POST whose body does not
    parse, or parses to a value without a [target], is answered 400 with
    [{error: description}], and the store is as it was. *)
Theorem C2_control_post :
  forall (JSON_parse : string -> result JSValue) (req : IncomingMessage) (st : Server),
    method req = "POST" ->
    (forall s,
        targetOf (JSON_parse (readBody (chunks req))) = Some s ->
        proxyUpdate JSON_parse req st
        = ({| statusCode := 200;
              contentType := Some "application/json";
              payload := Json (JObject [("success", JBool true)]) |},
           {| proxyTarget := ensureScheme s; options_target := options_target st |}))
    /\ (forall e,
           JSON_parse (readBody (chunks req)) = inl e ->
           proxyUpdate JSON_parse req st
           = ({| statusCode := 400;
                 contentType := Some "application/json";
                 payload := Json (JObject [("error", JString (message e))]) |}, st))
    /\ (forall parsed,
           JSON_parse (readBody (chunks req)) = inr parsed ->
           get parsed "target" = inr JUndefined ->
           exists description,
             proxyUpdate JSON_parse req st
             = ({| statusCode := 400;
                   contentType := Some "application/json";
                   payload := Json (JObject [("error", JString description)]) |}, st)
             /\ description <> "").
Proof.
  intros JSON_parse req st Hm. repeat split.
  - intros s Hs. pose proof (proxyUpdate_post JSON_parse req st Hm) as H.
    now rewrite Hs in H.
  - intros e He. unfold proxyUpdate, parseAndUpdate, JS.bind.
    now rewrite Hm, He.
  - intros parsed Hp Hg. unfold proxyUpdate, parseAndUpdate, JS.bind.
    rewrite Hm, Hp. simpl.
    destruct parsed as [| |b|q|s|items|props]; simpl in *; try discriminate;
      try (eexists; split; [reflexivity | discriminate]).
    injection Hg as Hg. rewrite Hg. simpl.
    eexists; split; [reflexivity | discriminate].
Qed.

Lemma C2_control_post_witness :
  proxyUpdate Session.sampleParse
    {| method := "POST"; url := "/@vite/proxy-update";
       chunks := [Session.targetOpen; "provider.example:9000"; Session.targetClose] |}
    initial
  = ({| statusCode := 200;
        contentType := Some "application/json";
        payload := Json (JObject [("success", JBool true)]) |},
     {| proxyTarget := "http://provider.example:9000";
        options_target := defaultTarget |})
  /\ proxyUpdate Session.sampleParse
       {| method := "POST"; url := "/@vite/proxy-update"; chunks := ["not json"] |}
       initial
     = ({| statusCode := 400;
           contentType := Some "application/json";
           payload := Json (JObject [("error", JString "Unexpected token in JSON")]) |},
        initial).
Proof.
  split.
  - destruct (C2_control_post Session.sampleParse
                {| method := "POST"; url := "/@vite/proxy-update";
                   chunks := [Session.targetOpen; "provider.example:9000";
                              Session.targetClose] |}
                initial eq_refl) as [H _].
    apply (H "provider.example:9000"). reflexivity.
  - destruct (C2_control_post Session.sampleParse
                {| method := "POST"; url := "/@vite/proxy-update";
                   chunks := ["not json"] |}
                initial eq_refl) as [_ [H _]].
    apply (H (SyntaxError "Unexpected token in JSON")). reflexivity.
Defined.

(** C10. A request to the control path whose method is not POST is answered
    405 with no body, whatever it carries and whatever [JSON.parse] would
    make of it, and the store is as it was. *)
Theorem C10_control_other_methods :
  forall (JSON_parse : string -> result JSValue) (req : IncomingMessage) (st : Server),
    method req <> "POST" ->
    proxyUpdate JSON_parse req st
    = ({| statusCode := 405; contentType := None; payload := Empty |}, st).
Proof.
  intros JSON_parse req st Hm. unfold proxyUpdate.
  destruct (String.eqb_spec (method req) "POST"); [contradiction | reflexivity].
Qed.

Lemma C10_control_other_methods_witness :
  proxyUpdate Session.sampleParse
    {| method := "GET"; url := "/@vite/proxy-update";
       chunks := [Session.targetOpen; "provider.example:9000"; Session.targetClose] |}
    initial
  = ({| statusCode := 405; contentType := None; payload := Empty |}, initial).
Proof.
  apply (C10_control_other_methods Session.sampleParse).
  discriminate.
Defined.

(** ** The proxy *)

Lemma ensureScheme_not_empty (s : string) : String.eqb (ensureScheme s) "" = false.
Proof.
  unfold ensureScheme. destruct (lacksScheme s) eqn:E; [reflexivity|].
  apply lacksScheme_false in E. destruct E as [t [-> | ->]]; reflexivity.
Qed.

(** The listener reads the module variable each time it runs: whatever
    [proxy.options.target] held, it then holds the stored target. *)
Lemma onProxyReq_reads_store (s stale : string) :
  onProxyReq {| proxyTarget := ensureScheme s; options_target := stale |}
  = {| proxyTarget := ensureScheme s; options_target := ensureScheme s |}.
Proof.
  unfold onProxyReq; simpl. rewrite ensureScheme_not_empty; simpl.
  now rewrite lacksScheme_ensureScheme.
Qed.

Lemma step_keeps_scheme (JSON_parse : string -> result JSValue)
      (i : Inbound) (st : Server) :
  carriesScheme (proxyTarget st) ->
  carriesScheme (options_target st) ->
  carriesScheme (proxyTarget (snd (step JSON_parse i st)))
  /\ carriesScheme (options_target (snd (step JSON_parse i st)))
  /\ forall out, fst (step JSON_parse i st) = Forwarded out ->
                 carriesScheme (out_target out).
Proof.
  intros Hp Ho. destruct i as [req|req]; simpl.
  - unfold proxyUpdate.
    destruct (method req =? "POST"); simpl; [|repeat split; auto; discriminate].
    pose proof (parseAndUpdate_cases JSON_parse (readBody (chunks req)) st) as H.
    destruct (targetOf (JSON_parse (readBody (chunks req)))) as [s|].
    + rewrite H; simpl. repeat split; auto; try discriminate.
      apply lacksScheme_false, lacksScheme_ensureScheme.
    + destruct H as [e H]. rewrite H; simpl. repeat split; auto; discriminate.
  - unfold proxyApi. destruct (startsWith (url req) "/api"); simpl.
    + assert (Hl : lacksScheme (proxyTarget st) = false) by now apply lacksScheme_false.
      unfold onProxyReq. rewrite Hl.
      destruct (truthy (JString (proxyTarget st))); simpl; repeat split; auto;
        intros out [= <-]; exact Ho.
    + repeat split; auto; discriminate.
Qed.

(** The invariant of the data model: from the initial state, whatever
    requests arrive, the stored target and every target a request is
    forwarded to carry a scheme. *)
Lemma serve_keeps_scheme (JSON_parse : string -> result JSValue)
      (inbound : list Inbound) (st : Server) :
  carriesScheme (proxyTarget st) ->
  carriesScheme (options_target st) ->
  carriesScheme (proxyTarget (snd (serve JSON_parse inbound st)))
  /\ forall out, In (Forwarded out) (fst (serve JSON_parse inbound st)) ->
                 carriesScheme (out_target out).
Proof.
  revert st; induction inbound as [|i rest IH]; intros st Hp Ho; simpl.
  - split; [exact Hp | contradiction].
  - destruct (step_keeps_scheme JSON_parse i st Hp Ho) as [Hp' [Ho' Hf]].
    destruct (step JSON_parse i st) as [o st'] eqn:Es; simpl in *.
    destruct (IH st' Hp' Ho') as [Hp'' Hin].
    destruct (serve JSON_parse rest st') as [os st'']; simpl in *.
    split; [exact Hp''|].
    intros out [-> | H]; [now apply Hf | now apply Hin].
Qed.

(** C1, on the code. After a control POST that is answered 200, the next
    request under [/api] is still forwarded to the target the proxy's
    options held before the update: its outgoing request is built before the
    [proxyReq] listener copies the stored target into the options. The
    request after that one is the first forwarded to the new target. *)
Theorem C1_update_reaches_second_request :
  forall (JSON_parse : string -> result JSValue)
         (post r1 r2 : IncomingMessage) (st : Server) (s : string),
    method post = "POST" ->
    targetOf (JSON_parse (readBody (chunks post))) = Some s ->
    startsWith (url r1) "/api" = true ->
    startsWith (url r2) "/api" = true ->
    serve JSON_parse [ToControl post; ToApi r1; ToApi r2] st
    = ([Answered {| statusCode := 200;
                    contentType := Some "application/json";
                    payload := Json (JObject [("success", JBool true)]) |};
        Forwarded {| out_method := method r1;
                     out_target := options_target st;
                     out_path := rewrite (url r1) |};
        Forwarded {| out_method := method r2;
                     out_target := ensureScheme s;
                     out_path := rewrite (url r2) |}],
       {| proxyTarget := ensureScheme s; options_target := ensureScheme s |}).
Proof.
  intros JSON_parse post r1 r2 st s Hm Hs H1 H2.
  pose proof (proxyUpdate_post JSON_parse post st Hm) as Hp.
  rewrite Hs in Hp.
  unfold serve, step. rewrite Hp.
  unfold proxyApi. rewrite H1. rewrite onProxyReq_reads_store.
  rewrite H2. rewrite onProxyReq_reads_store. reflexivity.
Qed.

Lemma C1_update_reaches_second_request_witness :
  serve Session.sampleParse
    [ToControl {| method := "POST"; url := "/@vite/proxy-update";
                  chunks := [Session.sampleStringify
                               (JObject [("target", JString "provider.example:9000")])] |};
     ToApi {| method := "GET"; url := "/api/models"; chunks := [] |};
     ToApi {| method := "GET"; url := "/api/models"; chunks := [] |}]
    initial
  = ([Answered {| statusCode := 200;
                  contentType := Some "application/json";
                  payload := Json (JObject [("success", JBool true)]) |};
      Forwarded {| out_method := "GET";
                   out_target := "http://provider.gpufarm.xyz:31617";
                   out_path := "/models" |};
      Forwarded {| out_method := "GET";
                   out_target := "http://provider.example:9000";
                   out_path := "/models" |}],
     {| proxyTarget := "http://provider.example:9000";
        options_target := "http://provider.example:9000" |}).
Proof.
  apply (C1_update_reaches_second_request Session.sampleParse
           {| method := "POST"; url := "/@vite/proxy-update";
              chunks := [Session.sampleStringify
                           (JObject [("target", JString "provider.example:9000")])] |}
           {| method := "GET"; url := "/api/models"; chunks := [] |}
           {| method := "GET"; url := "/api/models"; chunks := [] |}
           initial "provider.example:9000");
    reflexivity.
Defined.

(** ** The configuration form *)

Lemma checkProbe_fails (reply : Fetch.Reply) :
  App.probeFails reply = true -> exists e, App.checkProbe reply = inl e.
Proof.
  unfold App.probeFails, App.checkProbe, JS.bind.
  destruct reply as [e|response]; [now exists e|].
  destruct (Fetch.ok response); simpl.
  - destruct (Fetch.json response) as [e|data]; [now exists e|].
    destruct (get data "available_models") as [e|v]; [now exists e|].
    destruct v; simpl; intro H; try discriminate; try (eexists; reflexivity).
    + destruct b; eexists; reflexivity.
    + destruct (negb (Qeq_bool q 0)); eexists; reflexivity.
    + destruct (negb (s =? "")); eexists; reflexivity.
  - intros _. destruct (Fetch.text response) as [e|t]; eexists; reflexivity.
Qed.

Lemma checkProbe_passes (reply : Fetch.Reply) :
  App.probeFails reply = false -> App.checkProbe reply = inr tt.
Proof.
  unfold App.probeFails, App.checkProbe, JS.bind.
  destruct reply as [e|response]; [discriminate|].
  destruct (Fetch.ok response); simpl; [|discriminate].
  destruct (Fetch.json response) as [e|data]; [discriminate|].
  destruct (get data "available_models") as [e|v]; [discriminate|].
  destruct v; simpl; intro H; try discriminate. reflexivity.
Qed.

Lemma lacksScheme_formatUrl (s : string) : lacksScheme (App.formatUrl s) = false.
Proof.
  unfold App.formatUrl. exact (lacksScheme_ensureScheme (stripTrailingSlash s)).
Qed.

(** The other way: a probe that passes is what writes the persisted key
    and leaves the form. *)
Lemma handleApiSubmit_validated (URL_valid : string -> bool) (st : App.State)
      (updateResponse : Fetch.Response) (probeReply : Fetch.Reply) :
  URL_valid (App.formatUrl (App.apiUrl st)) = true ->
  App.probeFails probeReply = false ->
  fst (App.handleApiSubmit URL_valid st (inr updateResponse) probeReply)
  = {| App.apiUrl := App.formatUrl (App.apiUrl st);
       App.isConfiguring := false;
       App.error := "";
       App.localStorage :=
         App.setItem "apiUrl" (App.formatUrl (App.apiUrl st)) (App.localStorage st) |}.
Proof.
  intros Hv Hp. unfold App.handleApiSubmit, App.attempt; simpl.
  rewrite Hv; simpl. now rewrite (checkProbe_passes probeReply Hp).
Qed.

(** C5. When the probe that follows the submission of a target fails (no
    connection, a status that is not OK, or no parseable array of models), the
    form shows an error, [isConfiguring] and the persisted key are as they
    were, and the page sends nothing after the probe: the development server
    keeps the submitted target in its store, whatever target was saved
    before. *)
Theorem C5_probe_failure :
  forall (URL_valid : string -> bool)
         (JSON_parse : string -> result JSValue)
         (JSON_stringify : JSValue -> string)
         (st : App.State) (updateResponse : Fetch.Response)
         (probeReply : Fetch.Reply) (srv : Server),
    URL_valid (App.formatUrl (App.apiUrl st)) = true ->
    App.probeFails probeReply = true ->
    JSON_parse (JSON_stringify (JObject [("target", JString (App.formatUrl (App.apiUrl st)))]))
    = inr (JObject [("target", JString (App.formatUrl (App.apiUrl st)))]) ->
    exists reason,
      App.handleApiSubmit URL_valid st (inr updateResponse) probeReply
      = ({| App.apiUrl := App.apiUrl st;
            App.isConfiguring := App.isConfiguring st;
            App.error := "Unable to connect to API: " ++ reason;
            App.localStorage := App.localStorage st |},
         [App.updateRequest (App.formatUrl (App.apiUrl st)); App.probeRequest])
      /\ proxyTarget
           (snd (serve JSON_parse
                   (map (Session.route JSON_stringify)
                      [App.updateRequest (App.formatUrl (App.apiUrl st)); App.probeRequest])
                   srv))
         = App.formatUrl (App.apiUrl st).
Proof.
  intros URL_valid JSON_parse JSON_stringify st updateResponse probeReply srv Hv Hf Hw.
  destruct (checkProbe_fails probeReply Hf) as [e He].
  exists (message e). split.
  - unfold App.handleApiSubmit, App.attempt; simpl.
    rewrite Hv; simpl. rewrite He; simpl. reflexivity.
  - set (formattedUrl := App.formatUrl (App.apiUrl st)) in *.
    set (post := {| method := "POST"; url := "/@vite/proxy-update";
                    chunks := [JSON_stringify (JObject [("target", JString formattedUrl)])] |}).
    set (probe := {| method := "GET"; url := "/api/models"; chunks := [] |}).
    change (map (Session.route JSON_stringify)
              [App.updateRequest formattedUrl; App.probeRequest])
      with [ToControl post; ToApi probe].
    assert (Ht : targetOf (JSON_parse (readBody (chunks post))) = Some formattedUrl).
    { change (readBody (chunks post))
        with (JSON_stringify (JObject [("target", JString formattedUrl)])).
      now rewrite Hw. }
    pose proof (proxyUpdate_post JSON_parse post srv eq_refl) as Hp.
    rewrite Ht in Hp.
    unfold serve, step. rewrite Hp.
    change (proxyApi probe ?s) with (Some (mkOutgoing "GET" (options_target s) "/models",
                                           onProxyReq s)).
    rewrite onProxyReq_reads_store. cbn [snd proxyTarget].
    unfold ensureScheme. subst formattedUrl. now rewrite lacksScheme_formatUrl.
Qed.

Lemma C5_probe_failure_witness :
  exists reason,
    App.handleApiSubmit (fun _ => true)
      {| App.apiUrl := "provider.example:9000/"; App.isConfiguring := true;
         App.error := ""; App.localStorage := [("apiUrl", "http://saved.example:8000")] |}
      (inr {| Fetch.status := 200; Fetch.text := inr ""; Fetch.json := inr JNull |})
      (inr {| Fetch.status := 502; Fetch.text := inr "Bad Gateway";
              Fetch.json := inl (SyntaxError "Unexpected token in JSON") |})
    = ({| App.apiUrl := "provider.example:9000/"; App.isConfiguring := true;
          App.error := "Unable to connect to API: " ++ reason;
          App.localStorage := [("apiUrl", "http://saved.example:8000")] |},
       [App.updateRequest "http://provider.example:9000"; App.probeRequest])
    /\ proxyTarget
         (snd (serve Session.sampleParse
                 (map (Session.route Session.sampleStringify)
                    [App.updateRequest "http://provider.example:9000"; App.probeRequest])
                 {| proxyTarget := "http://saved.example:8000";
                    options_target := "http://saved.example:8000" |}))
       = "http://provider.example:9000".
Proof.
  apply (C5_probe_failure (fun _ => true) Session.sampleParse Session.sampleStringify
           {| App.apiUrl := "provider.example:9000/"; App.isConfiguring := true;
              App.error := "";
              App.localStorage := [("apiUrl", "http://saved.example:8000")] |}
           {| Fetch.status := 200; Fetch.text := inr ""; Fetch.json := inr JNull |}
           (inr {| Fetch.status := 502; Fetch.text := inr "Bad Gateway";
                   Fetch.json := inl (SyntaxError "Unexpected token in JSON") |})
           {| proxyTarget := "http://saved.example:8000";
              options_target := "http://saved.example:8000" |});
    reflexivity.
Defined.

(** ** The chat panel: listing the models *)

Import ChatInterface.

Lemma readModels_listed (response : Fetch.Response) (data : JSValue) :
  Fetch.ok response = true ->
  Fetch.json response = inr data ->
  match listedModels data with
  | Some items => readModels (inr response) = inr items
  | None => readModels (inr response) = inl (Error "Invalid response format from server")
  end.
Proof.
  intros Hok Hj. unfold readModels, listedModels, JS.bind.
  rewrite Hok, Hj. simpl.
  destruct data as [| |b|q|s|items|props]; simpl; try reflexivity.
  - now destruct b.
  - now destruct (negb (Qeq_bool q 0)).
  - now destruct (negb (s =? "")).
  - destruct (lookup "available_models" props) as [| |b|q|s|items|props']; simpl;
      try reflexivity.
    + now destruct b.
    + now destruct (negb (Qeq_bool q 0)).
    + now destruct (negb (s =? "")).
Qed.

(** C7. When the listing answers with an array of models that is not empty,
    the panel stores the array and selects its first element, so
    [{available_models: ["a","b"]}] selects ["a"]. When the answer has no
    array under [available_models] (the field is missing, as in [{}], or is
    not an array), the panel shows the listing failure, and the models and
    the selection are as they were. *)
Theorem C7_models_listing :
  forall (response : Fetch.Response) (data : JSValue) (st : State),
    Fetch.ok response = true ->
    Fetch.json response = inr data ->
    (forall first rest,
        listedModels data = Some (first :: rest) ->
        fetchModels (inr response) st
        = {| messages := messages st; input := input st; loading := loading st;
             models := first :: rest; selectedModel := first; error := None |})
    /\ (listedModels data = None ->
        fetchModels (inr response) st
        = {| messages := messages st; input := input st; loading := loading st;
             models := models st; selectedModel := selectedModel st;
             error := Some "Failed to load models: Invalid response format from server" |}
        /\ showsErrorPanel (fetchModels (inr response) st) = true).
Proof.
  intros response data st Hok Hj.
  pose proof (readModels_listed response data Hok Hj) as H.
  split.
  - intros first rest Hl. rewrite Hl in H. unfold fetchModels. now rewrite H.
  - intro Hl. rewrite Hl in H. unfold fetchModels, showsErrorPanel. now rewrite H.
Qed.

Lemma C7_models_listing_witness :
  fetchModels
    (inr {| Fetch.status := 200; Fetch.text := inr "";
            Fetch.json := inr (JObject [("available_models",
                                         JArray [JString "a"; JString "b"])]) |})
    mount
  = {| messages := []; input := ""; loading := false;
       models := [JString "a"; JString "b"]; selectedModel := JString "a";
       error := None |}
  /\ showsErrorPanel
       (fetchModels
          (inr {| Fetch.status := 200; Fetch.text := inr "";
                  Fetch.json := inr (JObject []) |})
          mount) = true.
Proof.
  split.
  - destruct (C7_models_listing
                {| Fetch.status := 200; Fetch.text := inr "";
                   Fetch.json := inr (JObject [("available_models",
                                                JArray [JString "a"; JString "b"])]) |}
                (JObject [("available_models", JArray [JString "a"; JString "b"])])
                mount eq_refl eq_refl) as [H _].
    apply (H (JString "a") [JString "b"]). reflexivity.
  - destruct (C7_models_listing
                {| Fetch.status := 200; Fetch.text := inr "";
                   Fetch.json := inr (JObject []) |}
                (JObject []) mount eq_refl eq_refl) as [_ H].
    apply H. reflexivity.
Defined.

(** C9. An answer whose [available_models] is the empty array is a
    successful listing: no failure panel, an empty list of models, and the
    selection still the empty string; whatever is then typed, submitting
    changes nothing and sends nothing. *)
Theorem C9_empty_listing :
  forall (response : Fetch.Response) (data : JSValue) (st : State),
    Fetch.ok response = true ->
    Fetch.json response = inr data ->
    listedModels data = Some [] ->
    selectedModel st = JString "" ->
    showsErrorPanel (fetchModels (inr response) st) = false
    /\ models (fetchModels (inr response) st) = []
    /\ selectedModel (fetchModels (inr response) st) = JString ""
    /\ forall (typed : string) (chatReply : Fetch.Reply),
        handleSubmit chatReply (setInput typed (fetchModels (inr response) st))
        = (setInput typed (fetchModels (inr response) st), None).
Proof.
  intros response data st Hok Hj Hl Hs.
  pose proof (readModels_listed response data Hok Hj) as H. rewrite Hl in H.
  assert (E : fetchModels (inr response) st
              = {| messages := messages st; input := input st; loading := loading st;
                   models := []; selectedModel := JString ""; error := None |}).
  { unfold fetchModels. rewrite H. simpl. now rewrite Hs. }
  rewrite E. repeat split.
  intros typed chatReply. unfold handleSubmit, submit, setInput; simpl.
  now rewrite orb_true_r.
Qed.

Lemma C9_empty_listing_witness :
  showsErrorPanel
    (fetchModels
       (inr {| Fetch.status := 200; Fetch.text := inr "";
               Fetch.json := inr (JObject [("available_models", JArray [])]) |})
       mount) = false
  /\ handleSubmit (inl (TypeError "Failed to fetch"))
       (setInput "hello"
          (fetchModels
             (inr {| Fetch.status := 200; Fetch.text := inr "";
                     Fetch.json := inr (JObject [("available_models", JArray [])]) |})
             mount))
     = (setInput "hello"
          (fetchModels
             (inr {| Fetch.status := 200; Fetch.text := inr "";
                     Fetch.json := inr (JObject [("available_models", JArray [])]) |})
             mount), None).
Proof.
  destruct (C9_empty_listing
              {| Fetch.status := 200; Fetch.text := inr "";
                 Fetch.json := inr (JObject [("available_models", JArray [])]) |}
              (JObject [("available_models", JArray [])])
              mount eq_refl eq_refl eq_refl eq_refl) as [H1 [_ [_ H4]]].
  split; [exact H1 | apply H4].
Defined.

(** ** The chat panel: sending a message *)

Lemma submit_accepted (st : State) :
  accepts st = true ->
  submit st
  = Some ({| messages := (messages st ++ [userMessage st])%list; input := "";
             loading := true; models := models st;
             selectedModel := selectedModel st; error := error st |},
          {| chat_messages := (messages st ++ [userMessage st])%list;
             model := selectedModel st;
             temperature := 7 # 10;
             max_tokens := 1000 |}).
Proof.
  unfold accepts, submit. intro H. apply negb_true_iff in H. now rewrite H.
Qed.

Lemma readData_fails (reply : Fetch.Reply) :
  chatFails reply = true -> exists e, readData reply = inl e.
Proof.
  unfold chatFails, readData, JS.bind.
  destruct reply as [e|response]; [now exists e|].
  intro H. rewrite H. eexists; reflexivity.
Qed.

(** C6. Whatever the transcript, when a message is submitted and the chat
    request fails (the fetch is rejected, or the response is not OK), the
    transcript becomes the old one followed by the user's entry, with the
    text as typed, and by one assistant entry holding the fixed fallback
    text; nothing else is added and nothing is taken back. *)
Theorem C6_chat_failure :
  forall (reply : Fetch.Reply) (st : State),
    accepts st = true ->
    chatFails reply = true ->
    fst (handleSubmit reply st)
    = {| messages :=
           (messages st
              ++ [{| role := "user"; content := JString (input st) |};
                  {| role := "assistant";
                     content := JString "Sorry, there was an error processing your request." |}])%list;
         input := "";
         loading := false;
         models := models st;
         selectedModel := selectedModel st;
         error := error st |}.
Proof.
  intros reply st Ha Hf.
  unfold handleSubmit. rewrite (submit_accepted st Ha).
  destruct (readData_fails reply Hf) as [e He].
  unfold settle. rewrite He. unfold appendMessage, userMessage; simpl.
  now rewrite <- app_assoc.
Qed.

Lemma C6_chat_failure_witness :
  fst (handleSubmit (inl (TypeError "Failed to fetch"))
         {| messages := [{| role := "user"; content := JString "hi" |};
                         {| role := "assistant"; content := JString "hello" |}];
            input := "how are you?"; loading := false;
            models := [JString "a"]; selectedModel := JString "a"; error := None |})
  = {| messages := [{| role := "user"; content := JString "hi" |};
                    {| role := "assistant"; content := JString "hello" |};
                    {| role := "user"; content := JString "how are you?" |};
                    {| role := "assistant";
                       content := JString "Sorry, there was an error processing your request." |}];
       input := ""; loading := false;
       models := [JString "a"]; selectedModel := JString "a"; error := None |}.
Proof.
  apply (C6_chat_failure (inl (TypeError "Failed to fetch"))
           {| messages := [{| role := "user"; content := JString "hi" |};
                           {| role := "assistant"; content := JString "hello" |}];
              input := "how are you?"; loading := false;
              models := [JString "a"]; selectedModel := JString "a"; error := None |});
    reflexivity.
Defined.

(** C8. For a transcript of N messages and one accepted new message, the
    body of the chat request holds N+1 entries: the N of the transcript, each
    at its place and as it was, then the user's entry; with them go the
    selected model, temperature 0.7 and max_tokens 1000. *)
Theorem C8_chat_request :
  forall (reply : Fetch.Reply) (st : State),
    accepts st = true ->
    exists request,
      snd (handleSubmit reply st) = Some request
      /\ chat_messages request
         = (messages st ++ [{| role := "user"; content := JString (input st) |}])%list
      /\ length (chat_messages request) = (length (messages st) + 1)%nat
      /\ (forall i m, nth_error (messages st) i = Some m ->
                      nth_error (chat_messages request) i = Some m)
      /\ nth_error (chat_messages request) (length (messages st))
         = Some {| role := "user"; content := JString (input st) |}
      /\ model request = selectedModel st
      /\ temperature request = 7 # 10
      /\ max_tokens request = 1000%Z.
Proof.
  intros reply st Ha.
  unfold handleSubmit. rewrite (submit_accepted st Ha).
  eexists. split; [reflexivity|]. cbn [chat_messages model temperature max_tokens].
  unfold userMessage. repeat split.
  - now rewrite length_app.
  - intros i m H. rewrite nth_error_app1; [exact H|].
    apply nth_error_Some. congruence.
  - rewrite nth_error_app2, Nat.sub_diag by lia. reflexivity.
Qed.

Lemma C8_chat_request_witness :
  exists request,
    snd (handleSubmit (inl (TypeError "Failed to fetch"))
           {| messages := [{| role := "user"; content := JString "hi" |};
                           {| role := "assistant"; content := JString "hello" |}];
              input := "how are you?"; loading := false;
              models := [JString "a"]; selectedModel := JString "a"; error := None |})
    = Some request
    /\ chat_messages request
       = [{| role := "user"; content := JString "hi" |};
          {| role := "assistant"; content := JString "hello" |};
          {| role := "user"; content := JString "how are you?" |}]
    /\ model request = JString "a".
Proof.
  destruct (C8_chat_request (inl (TypeError "Failed to fetch"))
              {| messages := [{| role := "user"; content := JString "hi" |};
                              {| role := "assistant"; content := JString "hello" |}];
                 input := "how are you?"; loading := false;
                 models := [JString "a"]; selectedModel := JString "a"; error := None |}
              eq_refl) as [request [H1 [H2 [_ [_ [_ [H6 _]]]]]]].
  exists request. repeat split; assumption.
Defined.

(** * Further properties of the sources *)

(** ** More on strings *)

Lemma append_empty_r (s : string) : s ++ "" = s.
Proof. induction s as [|c s IH]; simpl; [reflexivity | now rewrite IH]. Qed.

Lemma append_assoc (a b c : string) : (a ++ b) ++ c = a ++ (b ++ c).
Proof. induction a as [|x a IH]; simpl; [reflexivity | now rewrite IH]. Qed.

Lemma length_append (a b : string) :
  String.length (a ++ b) = (String.length a + String.length b)%nat.
Proof. induction a as [|x a IH]; simpl; [reflexivity | now rewrite IH]. Qed.

Lemma substring_all (s : string) : String.substring 0 (String.length s) s = s.
Proof. induction s as [|c s IH]; simpl; [reflexivity | now rewrite IH]. Qed.

Lemma substring_skip (p t : string) (m : nat) :
  String.substring (String.length p) m (p ++ t) = String.substring 0 m t.
Proof. induction p as [|c p IH]; simpl; [reflexivity | exact IH]. Qed.

Lemma stripPrefix_append (p t : string) : stripPrefix p (p ++ t) = t.
Proof.
  unfold stripPrefix. rewrite prefix_append, length_append.
  replace (String.length p + String.length t - String.length p)%nat
    with (String.length t) by lia.
  now rewrite substring_skip, substring_all.
Qed.

Lemma carriesScheme_not_empty (s : string) : carriesScheme s -> s <> "".
Proof. intros [t [-> | ->]]; discriminate. Qed.

(** ** The control middleware, continued *)

(** A POST whose body is JSON but carries no string under [target] (the
    value there is a number, a boolean, [null], an array or an object; or the
    body is not an object at all) is answered 400 with a description that is
    not empty, and the store is as it was. *)
Theorem control_rejects_non_string_target :
  forall (JSON_parse : string -> result JSValue) (req : IncomingMessage)
         (st : Server) (parsed : JSValue),
    method req = "POST" ->
    JSON_parse (readBody (chunks req)) = inr parsed ->
    (forall s, get parsed "target" <> inr (JString s)) ->
    exists description,
      description <> ""
      /\ proxyUpdate JSON_parse req st
         = ({| statusCode := 400;
               contentType := Some "application/json";
               payload := Json (JObject [("error", JString description)]) |}, st).
Proof.
  intros JSON_parse req st parsed Hm Hp Hn.
  unfold proxyUpdate, parseAndUpdate, JS.bind. rewrite Hm, Hp. simpl.
  destruct parsed as [| |b|q|s|items|props]; simpl in *;
    try (eexists; split; [|reflexivity]; discriminate).
  destruct (lookup "target" props) as [| |b|q|s|items|props']; simpl;
    try (eexists; split; [|reflexivity]; discriminate).
  now elim (Hn s).
Qed.

Lemma control_rejects_non_string_target_witness :
  exists description,
    description <> ""
    /\ proxyUpdate (fun _ => inr (JObject [("target", JNumber (9000 # 1))]))
         {| method := "POST"; url := "/@vite/proxy-update"; chunks := ["{...}"] |}
         initial
       = ({| statusCode := 400;
             contentType := Some "application/json";
             payload := Json (JObject [("error", JString description)]) |}, initial).
Proof.
  apply (control_rejects_non_string_target
           (fun _ => inr (JObject [("target", JNumber (9000 # 1))]))
           {| method := "POST"; url := "/@vite/proxy-update"; chunks := ["{...}"] |}
           initial (JObject [("target", JNumber (9000 # 1))]) eq_refl eq_refl).
  intros s H. discriminate.
Defined.

(** Normalising is idempotent: handing [updateProxyTarget] a target it has
    already normalised stores the same as handing it the original. *)
Theorem updateProxyTarget_normalized_again :
  forall (s : string) (st : Server),
    updateProxyTarget (JString (ensureScheme s)) st = updateProxyTarget (JString s) st.
Proof.
  intros s st. unfold updateProxyTarget.
  rewrite lacksScheme_ensureScheme. reflexivity.
Qed.

(** ** The server over a run of requests *)

Lemma step_proxyTarget (JSON_parse : string -> result JSValue)
      (i : Inbound) (st : Server) :
  proxyTarget (snd (step JSON_parse i st))
  = match acceptedTarget JSON_parse i with
    | Some s => ensureScheme s
    | None => proxyTarget st
    end.
Proof.
  destruct i as [req|req]; simpl.
  - unfold proxyUpdate. destruct (method req =? "POST"); [|reflexivity].
    pose proof (parseAndUpdate_cases JSON_parse (readBody (chunks req)) st) as H.
    destruct (targetOf (JSON_parse (readBody (chunks req)))) as [s|].
    + now rewrite H.
    + destruct H as [e H]. now rewrite H.
  - unfold proxyApi. destruct (startsWith (url req) "/api"); [|reflexivity].
    unfold onProxyReq. now destruct (truthy (JString (proxyTarget st))).
Qed.

(** The stored target is decided by the control POSTs alone, and the last
    accepted one wins: after any run of requests it is the normalised target
    of the most recent POST the middleware accepted, and the one before the
    run when there was none. Proxied requests, rejected POSTs and other
    methods never change it. *)
Theorem store_follows_last_accepted_post :
  forall (JSON_parse : string -> result JSValue) (inbound : list Inbound) (st : Server),
    proxyTarget (snd (serve JSON_parse inbound st))
    = fold_left (fun current i =>
                   match acceptedTarget JSON_parse i with
                   | Some s => ensureScheme s
                   | None => current
                   end) inbound (proxyTarget st).
Proof.
  intros JSON_parse inbound. induction inbound as [|i rest IH]; intro st; simpl.
  - reflexivity.
  - rewrite <- step_proxyTarget.
    destruct (step JSON_parse i st) as [o st'] eqn:Es; simpl.
    rewrite <- IH. now destruct (serve JSON_parse rest st').
Qed.

(** From the initial state, whatever requests arrive and whatever they
    carry, the stored target is never empty and carries a scheme, and so does
    the target of every request the proxy forwards. *)
Theorem targets_always_carry_scheme :
  forall (JSON_parse : string -> result JSValue) (inbound : list Inbound),
    carriesScheme (proxyTarget (snd (serve JSON_parse inbound initial)))
    /\ proxyTarget (snd (serve JSON_parse inbound initial)) <> ""
    /\ forall out,
        In (Forwarded out) (fst (serve JSON_parse inbound initial)) ->
        carriesScheme (out_target out).
Proof.
  intros JSON_parse inbound.
  assert (Hi : carriesScheme defaultTarget)
    by (exists "provider.gpufarm.xyz:31617"; now left).
  destruct (serve_keeps_scheme JSON_parse inbound initial Hi Hi) as [H1 H2].
  repeat split; auto. now apply carriesScheme_not_empty.
Qed.

Lemma targets_always_carry_scheme_witness :
  carriesScheme "http://provider.gpufarm.xyz:31617"
  /\ carriesScheme "http://bare.example".
Proof.
  destruct (targets_always_carry_scheme
              (fun _ => inr (JObject [("target", JString "bare.example")]))
              [ToControl {| method := "POST"; url := "/@vite/proxy-update"; chunks := [] |};
               ToApi {| method := "GET"; url := "/api/models"; chunks := [] |};
               ToApi {| method := "GET"; url := "/api/models"; chunks := [] |}])
    as [_ [_ H]].
  split; apply (H (mkOutgoing "GET" _ "/models")); simpl; auto.
Defined.

(** For a request under [/api] the proxy server is handed the method as it
    came and the url less its leading [/api]: the url is [/api] followed by
    what [rewrite] leaves, be that [/chat], nothing at all (for [/api]
    itself) or [foo] (for [/apifoo]). A request elsewhere is not proxied.
    Neither changes the stored target. *)
Theorem proxied_path_round_trip :
  forall (req : IncomingMessage) (st : Server),
    (startsWith (url req) "/api" = true ->
       exists out st',
         proxyApi req st = Some (out, st')
         /\ url req = "/api" ++ out_path out
         /\ out_method out = method req
         /\ proxyTarget st' = proxyTarget st)
    /\ (startsWith (url req) "/api" = false -> proxyApi req st = None).
Proof.
  intros req st. unfold proxyApi. split; intro H; rewrite H; [|reflexivity].
  eexists; eexists; split; [reflexivity|]. simpl. repeat split.
  - apply startsWith_iff in H. destruct H as [t Ht]. rewrite Ht.
    unfold rewrite. now rewrite stripPrefix_append.
  - unfold onProxyReq. now destruct (truthy (JString (proxyTarget st))).
Qed.

Lemma proxied_path_round_trip_witness :
  (exists out st',
      proxyApi {| method := "POST"; url := "/api/chat"; chunks := [] |} initial
      = Some (out, st')
      /\ "/api/chat" = "/api" ++ out_path out
      /\ out_method out = "POST"
      /\ proxyTarget st' = proxyTarget initial)
  /\ (exists out st',
         proxyApi {| method := "GET"; url := "/api"; chunks := [] |} initial
         = Some (out, st')
         /\ "/api" = "/api" ++ out_path out
         /\ out_method out = "GET"
         /\ proxyTarget st' = proxyTarget initial)
  /\ (exists out st',
         proxyApi {| method := "GET"; url := "/apifoo"; chunks := [] |} initial
         = Some (out, st')
         /\ "/apifoo" = "/api" ++ out_path out
         /\ out_method out = "GET"
         /\ proxyTarget st' = proxyTarget initial).
Proof.
  split; [|split].
  - destruct (proxied_path_round_trip
                {| method := "POST"; url := "/api/chat"; chunks := [] |} initial)
      as [H _].
    apply H. reflexivity.
  - destruct (proxied_path_round_trip
                {| method := "GET"; url := "/api"; chunks := [] |} initial)
      as [H _].
    apply H. reflexivity.
  - destruct (proxied_path_round_trip
                {| method := "GET"; url := "/apifoo"; chunks := [] |} initial)
      as [H _].
    apply H. reflexivity.
Defined.

Lemma serve_api_targets (JSON_parse : string -> result JSValue)
      (reqs : list IncomingMessage) (st : Server) :
  carriesScheme (proxyTarget st) ->
  options_target st = proxyTarget st ->
  Forall (fun r => startsWith (url r) "/api" = true) reqs ->
  serve JSON_parse (map ToApi reqs) st
  = (map (fun r => Forwarded {| out_method := method r;
                                out_target := proxyTarget st;
                                out_path := rewrite (url r) |}) reqs, st).
Proof.
  intros Hc Ho Hall. induction Hall as [|r rest Hr _ IH]; simpl; [reflexivity|].
  unfold proxyApi. rewrite Hr.
  assert (Hs : onProxyReq st = st).
  { unfold onProxyReq. apply lacksScheme_false in Hc. rewrite Hc.
    destruct st as [p o]; simpl in *. subst o.
    now destruct (negb (p =? "")). }
  rewrite Hs, IH, Ho. reflexivity.
Qed.

(** Between two updates the proxy runs one request behind the store and no
    more: of a run of requests under [/api], the first is forwarded to the
    target the proxy's options held when it came in, and each later one to
    the stored target. *)
Theorem proxy_follows_store_after_first_request :
  forall (JSON_parse : string -> result JSValue)
         (first : IncomingMessage) (later : list IncomingMessage) (st : Server),
    carriesScheme (proxyTarget st) ->
    startsWith (url first) "/api" = true ->
    Forall (fun r => startsWith (url r) "/api" = true) later ->
    serve JSON_parse (map ToApi (first :: later)) st
    = (Forwarded {| out_method := method first;
                    out_target := options_target st;
                    out_path := rewrite (url first) |}
         :: map (fun r => Forwarded {| out_method := method r;
                                       out_target := proxyTarget st;
                                       out_path := rewrite (url r) |}) later,
       {| proxyTarget := proxyTarget st; options_target := proxyTarget st |}).
Proof.
  intros JSON_parse first later st Hc Hf Hl.
  cbn [map serve step]. unfold proxyApi at 1. rewrite Hf.
  assert (Hs : onProxyReq st
               = {| proxyTarget := proxyTarget st; options_target := proxyTarget st |}).
  { unfold onProxyReq, truthy.
    destruct (String.eqb_spec (proxyTarget st) "") as [E|_]; simpl.
    - now elim (carriesScheme_not_empty _ Hc).
    - pose proof Hc as Hk. apply lacksScheme_false in Hk. now rewrite Hk. }
  rewrite Hs.
  rewrite (serve_api_targets JSON_parse later
             {| proxyTarget := proxyTarget st; options_target := proxyTarget st |}
             Hc eq_refl Hl).
  reflexivity.
Qed.

Lemma proxy_follows_store_after_first_request_witness :
  serve Session.sampleParse
    (map ToApi [ {| method := "GET"; url := "/api/models"; chunks := [] |};
                 {| method := "POST"; url := "/api/chat"; chunks := [] |};
                 {| method := "POST"; url := "/api/chat"; chunks := [] |} ])
    {| proxyTarget := "http://new.example"; options_target := "http://old.example" |}
  = ([Forwarded (mkOutgoing "GET" "http://old.example" "/models");
      Forwarded (mkOutgoing "POST" "http://new.example" "/chat");
      Forwarded (mkOutgoing "POST" "http://new.example" "/chat")],
     {| proxyTarget := "http://new.example"; options_target := "http://new.example" |}).
Proof.
  apply (proxy_follows_store_after_first_request Session.sampleParse
           {| method := "GET"; url := "/api/models"; chunks := [] |}
           [ {| method := "POST"; url := "/api/chat"; chunks := [] |};
             {| method := "POST"; url := "/api/chat"; chunks := [] |} ]
           {| proxyTarget := "http://new.example"; options_target := "http://old.example" |}).
  - exists "new.example". now left.
  - reflexivity.
  - repeat constructor.
Defined.

(** ** The configuration form, continued *)

(** One trailing slash does not count: the form sends for [t/] what the
    scheme rule makes of [t], which is what it sends for [t] itself when [t]
    ends in no slash; and what it sends always carries a scheme. *)
Theorem formatUrl_trailing_slash :
  forall t : string,
    App.formatUrl (t ++ "/") = ensureScheme t
    /\ carriesScheme (App.formatUrl t)
    /\ (stripTrailingSlash t = t -> App.formatUrl (t ++ "/") = App.formatUrl t).
Proof.
  intro t. repeat split.
  - unfold App.formatUrl. now rewrite stripTrailingSlash_append.
  - apply lacksScheme_false, lacksScheme_formatUrl.
  - intro H. unfold App.formatUrl. now rewrite stripTrailingSlash_append, H.
Qed.

Lemma formatUrl_trailing_slash_witness :
  App.formatUrl ("provider.example:9000" ++ "/") = App.formatUrl "provider.example:9000".
Proof.
  destruct (formatUrl_trailing_slash "provider.example:9000") as [_ [_ H]].
  apply H. reflexivity.
Defined.

(** The submissions that never reach the probe. When [new URL] refuses the
    formatted text, nothing is sent at all; when the control POST is
    rejected, it is the only request sent. Both times the form shows the
    error and keeps its text, its mode and the persisted key. *)
Theorem submit_stops_before_probe :
  forall (URL_valid : string -> bool) (st : App.State)
         (updateReply probeReply : Fetch.Reply),
    (URL_valid (App.formatUrl (App.apiUrl st)) = false ->
       App.handleApiSubmit URL_valid st updateReply probeReply
       = ({| App.apiUrl := App.apiUrl st;
             App.isConfiguring := App.isConfiguring st;
             App.error := "Unable to connect to API: Please enter a valid URL";
             App.localStorage := App.localStorage st |}, []))
    /\ (URL_valid (App.formatUrl (App.apiUrl st)) = true ->
        forall e,
          App.handleApiSubmit URL_valid st (inl e) probeReply
          = ({| App.apiUrl := App.apiUrl st;
                App.isConfiguring := App.isConfiguring st;
                App.error := "Unable to connect to API: " ++ message e;
                App.localStorage := App.localStorage st |},
             [App.updateRequest (App.formatUrl (App.apiUrl st))])).
Proof.
  intros URL_valid st updateReply probeReply. split.
  - intro H. unfold App.handleApiSubmit, App.attempt; simpl. now rewrite H.
  - intros H e. unfold App.handleApiSubmit, App.attempt; simpl. now rewrite H.
Qed.

Lemma submit_stops_before_probe_witness :
  App.handleApiSubmit (fun s => negb (String.eqb s "http://"))
    {| App.apiUrl := ""; App.isConfiguring := true; App.error := "old";
       App.localStorage := [] |}
    (inl (TypeError "Failed to fetch")) (inl (TypeError "Failed to fetch"))
  = ({| App.apiUrl := ""; App.isConfiguring := true;
        App.error := "Unable to connect to API: Please enter a valid URL";
        App.localStorage := [] |}, [])
  /\ App.handleApiSubmit (fun _ => true)
       {| App.apiUrl := "provider.example"; App.isConfiguring := true; App.error := "";
          App.localStorage := [] |}
       (inl (TypeError "Failed to fetch")) (inl (TypeError "Failed to fetch"))
     = ({| App.apiUrl := "provider.example"; App.isConfiguring := true;
           App.error := "Unable to connect to API: Failed to fetch";
           App.localStorage := [] |},
        [App.updateRequest "http://provider.example"]).
Proof.
  split.
  - destruct (submit_stops_before_probe (fun s => negb (String.eqb s "http://"))
                {| App.apiUrl := ""; App.isConfiguring := true; App.error := "old";
                   App.localStorage := [] |}
                (inl (TypeError "Failed to fetch")) (inl (TypeError "Failed to fetch")))
      as [H _].
    apply H. reflexivity.
  - destruct (submit_stops_before_probe (fun _ => true)
                {| App.apiUrl := "provider.example"; App.isConfiguring := true;
                   App.error := ""; App.localStorage := [] |}
                (inl (TypeError "Failed to fetch")) (inl (TypeError "Failed to fetch")))
      as [_ H].
    apply (H eq_refl (TypeError "Failed to fetch")).
Defined.

(** When the persisted key is written. The handler writes it, and leaves
    the form, exactly when the formatted text is a URL, the control POST
    resolved and the probe passed; the answer to the control POST itself,
    its status included, plays no part. *)
Theorem persisted_key_written_iff :
  forall (URL_valid : string -> bool) (st : App.State)
         (updateReply probeReply : Fetch.Reply),
    App.localStorage (fst (App.handleApiSubmit URL_valid st updateReply probeReply))
    = (if validated URL_valid st updateReply probeReply
       then App.setItem "apiUrl" (App.formatUrl (App.apiUrl st)) (App.localStorage st)
       else App.localStorage st)
    /\ App.isConfiguring (fst (App.handleApiSubmit URL_valid st updateReply probeReply))
       = (if validated URL_valid st updateReply probeReply
          then false else App.isConfiguring st).
Proof.
  intros URL_valid st updateReply probeReply. unfold validated.
  unfold App.handleApiSubmit, App.attempt; simpl.
  destruct (URL_valid (App.formatUrl (App.apiUrl st))); simpl; [|now split].
  destruct updateReply as [e|r]; simpl; [now split|].
  destruct (App.probeFails probeReply) eqn:Ep; simpl.
  - destruct (checkProbe_fails probeReply Ep) as [e He]. rewrite He. now split.
  - rewrite (checkProbe_passes probeReply Ep). now split.
Qed.

Lemma getItem_setItem (k v : string) (s : App.Storage) :
  App.getItem k (App.setItem k v s) = Some v.
Proof. unfold App.setItem; simpl. now rewrite String.eqb_refl. Qed.

(** A validated target survives a reload: the state the handler leaves
    after a probe that passed is the state the component starts in when it
    is mounted again on the storage the handler wrote. *)
Theorem reload_after_validation :
  forall (URL_valid : string -> bool) (st : App.State)
         (updateResponse : Fetch.Response) (probeReply : Fetch.Reply),
    URL_valid (App.formatUrl (App.apiUrl st)) = true ->
    App.probeFails probeReply = false ->
    App.mount (App.localStorage
                 (fst (App.handleApiSubmit URL_valid st (inr updateResponse) probeReply)))
    = fst (App.handleApiSubmit URL_valid st (inr updateResponse) probeReply).
Proof.
  intros URL_valid st updateResponse probeReply Hv Hp.
  rewrite (handleApiSubmit_validated URL_valid st updateResponse probeReply Hv Hp).
  unfold App.mount; cbn [App.localStorage]. rewrite getItem_setItem.
  cbn [truthy].
  destruct (String.eqb_spec (App.formatUrl (App.apiUrl st)) "") as [E|_].
  - pose proof (lacksScheme_formatUrl (App.apiUrl st)) as Hc.
    apply lacksScheme_false in Hc. now elim (carriesScheme_not_empty _ Hc).
  - reflexivity.
Qed.

Lemma reload_after_validation_witness :
  App.mount [("apiUrl", "http://provider.example:9000")]
  = {| App.apiUrl := "http://provider.example:9000"; App.isConfiguring := false;
       App.error := "";
       App.localStorage := [("apiUrl", "http://provider.example:9000")] |}.
Proof.
  exact (reload_after_validation (fun _ => true)
           {| App.apiUrl := "provider.example:9000/"; App.isConfiguring := true;
              App.error := "";
              App.localStorage := [("apiUrl", "http://saved.example:8000")] |}
           {| Fetch.status := 200; Fetch.text := inr ""; Fetch.json := inr JNull |}
           (inr {| Fetch.status := 200; Fetch.text := inr "";
                   Fetch.json := inr (JObject [("available_models", JArray [])]) |})
           eq_refl eq_refl).
Defined.

(** ** The form, the panel and the server together *)

(** The requests of one configuration as the server handles them, from any
    state: the control POST is accepted and stores the URL exactly as the
    form sent it; the probe that follows is forwarded to the target the
    proxy's options held before the submission; the listing request of the
    chat panel, which comes next, is forwarded to the submitted URL. *)
Theorem configuration_session :
  forall (JSON_parse : string -> result JSValue) (JSON_stringify : JSValue -> string)
         (typed : string) (srv : Server),
    JSON_parse (JSON_stringify (JObject [("target", JString (App.formatUrl typed))]))
    = inr (JObject [("target", JString (App.formatUrl typed))]) ->
    serve JSON_parse
      (map (Session.route JSON_stringify)
         [App.updateRequest (App.formatUrl typed); App.probeRequest;
          ChatInterface.modelsRequest])
      srv
    = ([Answered {| statusCode := 200;
                    contentType := Some "application/json";
                    payload := Json (JObject [("success", JBool true)]) |};
        Forwarded {| out_method := "GET";
                     out_target := options_target srv;
                     out_path := "/models" |};
        Forwarded {| out_method := "GET";
                     out_target := App.formatUrl typed;
                     out_path := "/models" |}],
       {| proxyTarget := App.formatUrl typed; options_target := App.formatUrl typed |}).
Proof.
  intros JSON_parse JSON_stringify typed srv Hw.
  set (formattedUrl := App.formatUrl typed) in *.
  set (post := {| method := "POST"; url := "/@vite/proxy-update";
                  chunks := [JSON_stringify (JObject [("target", JString formattedUrl)])] |}).
  set (probe := {| method := "GET"; url := "/api/models"; chunks := [] |}).
  change (map (Session.route JSON_stringify)
            [App.updateRequest formattedUrl; App.probeRequest; modelsRequest])
    with [ToControl post; ToApi probe; ToApi probe].
  assert (Ht : targetOf (JSON_parse (readBody (chunks post))) = Some formattedUrl).
  { change (readBody (chunks post))
      with (JSON_stringify (JObject [("target", JString formattedUrl)])).
    now rewrite Hw. }
  assert (He : ensureScheme formattedUrl = formattedUrl).
  { unfold ensureScheme. subst formattedUrl. now rewrite lacksScheme_formatUrl. }
  pose proof (proxyUpdate_post JSON_parse post srv eq_refl) as Hp.
  rewrite Ht in Hp.
  unfold serve, step. rewrite Hp.
  change (proxyApi probe ?s) with (Some (mkOutgoing "GET" (options_target s) "/models",
                                         onProxyReq s)).
  rewrite onProxyReq_reads_store.
  change (proxyApi probe ?s) with (Some (mkOutgoing "GET" (options_target s) "/models",
                                         onProxyReq s)).
  rewrite onProxyReq_reads_store. cbn [options_target]. now rewrite He.
Qed.

Lemma configuration_session_witness :
  serve Session.sampleParse
    (map (Session.route Session.sampleStringify)
       [App.updateRequest "http://provider.example:9000"; App.probeRequest;
        ChatInterface.modelsRequest])
    {| proxyTarget := "http://saved.example:8000";
       options_target := "http://saved.example:8000" |}
  = ([Answered {| statusCode := 200;
                  contentType := Some "application/json";
                  payload := Json (JObject [("success", JBool true)]) |};
      Forwarded (mkOutgoing "GET" "http://saved.example:8000" "/models");
      Forwarded (mkOutgoing "GET" "http://provider.example:9000" "/models")],
     {| proxyTarget := "http://provider.example:9000";
        options_target := "http://provider.example:9000" |}).
Proof.
  apply (configuration_session Session.sampleParse Session.sampleStringify
           "provider.example:9000/"
           {| proxyTarget := "http://saved.example:8000";
              options_target := "http://saved.example:8000" |}).
  reflexivity.
Defined.

(** ** The chat panel, continued *)

Lemma dropWhiteSpace_empty (s : string) :
  dropWhiteSpace s = "" <-> allWhiteSpace s = true.
Proof.
  induction s as [|c s IH]; simpl; [tauto|].
  destruct (isWhiteSpace c); simpl; [exact IH|].
  split; discriminate.
Qed.

Lemma allWhiteSpace_dropWhiteSpace (s : string) :
  allWhiteSpace (dropWhiteSpace s) = allWhiteSpace s.
Proof.
  induction s as [|c s IH]; simpl; [reflexivity|].
  destruct (isWhiteSpace c) eqn:E; simpl; [exact IH | now rewrite E].
Qed.

Lemma allWhiteSpace_rev_string (s acc : string) :
  allWhiteSpace (rev_string s acc) = allWhiteSpace s && allWhiteSpace acc.
Proof.
  revert acc; induction s as [|c s IH]; intro acc; simpl; [reflexivity|].
  rewrite IH; simpl. now destruct (isWhiteSpace c), (allWhiteSpace s), (allWhiteSpace acc).
Qed.

Lemma rev_string_empty (s acc : string) :
  rev_string s acc = "" <-> s = "" /\ acc = "".
Proof.
  revert acc; induction s as [|c s IH]; intro acc; simpl.
  - tauto.
  - rewrite IH. split; [intros [_ H]; discriminate | intros [H _]; discriminate].
Qed.

(** [input.trim()] is the empty string exactly for an input of white space
    only. *)
Lemma trim_empty (s : string) : trim s = "" <-> allWhiteSpace s = true.
Proof.
  unfold trim. rewrite rev_string_empty, dropWhiteSpace_empty.
  rewrite allWhiteSpace_rev_string, allWhiteSpace_dropWhiteSpace; simpl.
  rewrite andb_true_r. tauto.
Qed.

Lemma accepts_spec (st : State) :
  accepts st = negb (allWhiteSpace (input st)) && truthy (selectedModel st).
Proof.
  unfold accepts. rewrite negb_orb, !negb_involutive. f_equal. simpl.
  destruct (allWhiteSpace (input st)) eqn:E.
  - apply trim_empty in E. now rewrite E.
  - destruct (String.eqb_spec (trim (input st)) "") as [H|_]; [|reflexivity].
    apply trim_empty in H. congruence.
Qed.

(** The guard of [handleSubmit]. A submission with an input of white space
    only, or with no model selected, changes nothing and sends nothing; every
    other submission sends a request. *)
Theorem submit_guard :
  forall (reply : Fetch.Reply) (st : State),
    (allWhiteSpace (input st) = true \/ truthy (selectedModel st) = false ->
       handleSubmit reply st = (st, None))
    /\ (allWhiteSpace (input st) = false -> truthy (selectedModel st) = true ->
        exists request, snd (handleSubmit reply st) = Some request).
Proof.
  intros reply st. pose proof (accepts_spec st) as Ha. split.
  - intro H. assert (E : accepts st = false).
    { rewrite Ha. destruct H as [-> | ->]; [reflexivity | apply andb_false_r]. }
    unfold handleSubmit, submit. unfold accepts in E.
    apply negb_false_iff in E. now rewrite E.
  - intros H1 H2. rewrite H1, H2 in Ha.
    unfold handleSubmit. rewrite (submit_accepted st Ha). eexists; reflexivity.
Qed.

Lemma submit_guard_witness :
  handleSubmit (inl (TypeError "Failed to fetch"))
    {| messages := []; input := "   "; loading := false;
       models := [JString "a"]; selectedModel := JString "a"; error := None |}
  = ({| messages := []; input := "   "; loading := false;
        models := [JString "a"]; selectedModel := JString "a"; error := None |}, None)
  /\ exists request,
      snd (handleSubmit (inl (TypeError "Failed to fetch"))
             {| messages := []; input := " hi "; loading := false;
                models := [JString "a"]; selectedModel := JString "a"; error := None |})
      = Some request.
Proof.
  split.
  - destruct (submit_guard (inl (TypeError "Failed to fetch"))
                {| messages := []; input := "   "; loading := false;
                   models := [JString "a"]; selectedModel := JString "a";
                   error := None |}) as [H _].
    apply H. left. reflexivity.
  - destruct (submit_guard (inl (TypeError "Failed to fetch"))
                {| messages := []; input := " hi "; loading := false;
                   models := [JString "a"]; selectedModel := JString "a";
                   error := None |}) as [_ H].
    apply H; reflexivity.
Defined.

(** What a listing attempt leaves, for every reply. Models are adopted only
    from a resolved, OK, JSON reply with an array under [available_models];
    a rejected fetch, a status that is not OK and a body that is not JSON all
    give the failure panel, with the models, the selection, the transcript
    and the input as they were. *)
Theorem fetchModels_outcome :
  forall (reply : Fetch.Reply) (st : State),
    match listingOf reply with
    | Some items =>
        fetchModels reply st
        = {| messages := messages st; input := input st; loading := loading st;
             models := items;
             selectedModel := hd (selectedModel st) items;
             error := None |}
    | None =>
        showsErrorPanel (fetchModels reply st) = true
        /\ exists description,
            fetchModels reply st
            = {| messages := messages st; input := input st; loading := loading st;
                 models := models st; selectedModel := selectedModel st;
                 error := Some ("Failed to load models: " ++ description) |}
    end.
Proof.
  intros reply st. unfold listingOf.
  destruct reply as [e|response].
  - unfold fetchModels, showsErrorPanel; simpl. split; [reflexivity | now exists (message e)].
  - destruct (Fetch.ok response) eqn:Hok.
    + destruct (Fetch.json response) as [e|data] eqn:Hj.
      * unfold fetchModels, showsErrorPanel, readModels, JS.bind. rewrite Hok, Hj; simpl.
        split; [reflexivity | eexists; reflexivity].
      * pose proof (readModels_listed response data Hok Hj) as H.
        destruct (listedModels data) as [items|].
        -- unfold fetchModels. rewrite H. now destruct items.
        -- unfold fetchModels, showsErrorPanel. rewrite H; simpl.
           split; [reflexivity | eexists; reflexivity].
    + unfold fetchModels, showsErrorPanel, readModels, JS.bind. rewrite Hok; simpl.
      split; [reflexivity | eexists; reflexivity].
Qed.



Lemma handleSubmit_request (reply : Fetch.Reply) (st : State) :
  accepts st = true ->
  snd (handleSubmit reply st)
  = Some {| chat_messages :=
              (messages st ++ [{| role := "user"; content := JString (input st) |}])%list;
            model := selectedModel st;
            temperature := 7 # 10;
            max_tokens := 1000 |}.
Proof.
  intro Ha. unfold handleSubmit. now rewrite (submit_accepted st Ha).
Qed.

Lemma handleSubmit_shown (reply : Fetch.Reply) (st : State) :
  accepts st = true ->
  renderThrows reply = false ->
  exists answer,
    fst (handleSubmit reply st)
    = {| messages :=
           (messages st
              ++ [{| role := "user"; content := JString (input st) |};
                  {| role := "assistant"; content := answer |}])%list;
         input := ""; loading := false; models := models st;
         selectedModel := selectedModel st; error := error st |}.
Proof.
  intros Ha Hr. unfold handleSubmit. rewrite (submit_accepted st Ha).
  unfold renderThrows in Hr. unfold settle, appendMessage, userMessage; cbn [fst].
  destruct (readData reply) as [e|data].
  - eexists; simpl. rewrite <- app_assoc. reflexivity.
  - unfold appendAnswer, JS.bind in *.
    destruct (get data "response") as [e|answer]; [discriminate|].
    exists answer; simpl. rewrite <- app_assoc. reflexivity.
Qed.

Lemma handleSubmit_refused (reply : Fetch.Reply) (st : State) :
  accepts st = false -> handleSubmit reply st = (st, None).
Proof.
  intro Ha. unfold handleSubmit, submit. unfold accepts in Ha.
  apply negb_false_iff in Ha. now rewrite Ha.
Qed.

(** An accepted submission answered with an OK response whose body is the
    JSON value [null] gets no assistant entry at all, not even the fallback
    text: the read of [data.response] is in the updater, which throws when
    React renders, after the [try]. The last transcript shown is the old one
    with the user's entry. *)
Theorem handleSubmit_null_body :
  forall (response : Fetch.Response) (st : State),
    accepts st = true ->
    Fetch.ok response = true ->
    Fetch.json response = inr JNull ->
    renderThrows (inr response) = true
    /\ messages (fst (handleSubmit (inr response) st))
       = (messages st ++ [{| role := "user"; content := JString (input st) |}])%list.
Proof.
  intros response st Ha Hok Hj.
  assert (Hd : readData (inr response) = inr JNull).
  { unfold readData, JS.bind. now rewrite Hok, Hj. }
  split.
  - unfold renderThrows. now rewrite Hd.
  - unfold handleSubmit. rewrite (submit_accepted st Ha).
    unfold settle. now rewrite Hd.
Qed.

Lemma handleSubmit_null_body_witness :
  renderThrows (inr {| Fetch.status := 200; Fetch.text := inr "null";
                       Fetch.json := inr JNull |}) = true
  /\ messages
       (fst (handleSubmit
               (inr {| Fetch.status := 200; Fetch.text := inr "null";
                       Fetch.json := inr JNull |})
               {| messages := []; input := "hi"; loading := false;
                  models := [JString "a"]; selectedModel := JString "a"; error := None |}))
     = [{| role := "user"; content := JString "hi" |}].
Proof.
  apply (handleSubmit_null_body
           {| Fetch.status := 200; Fetch.text := inr "null"; Fetch.json := inr JNull |}
           {| messages := []; input := "hi"; loading := false;
              models := [JString "a"]; selectedModel := JString "a"; error := None |});
    reflexivity.
Defined.

(** Whenever the render that follows does not throw, and whether the guard
    lets the submission through or not, [handleSubmit] leaves the models, the
    selection and the listing error alone: a chat that fails never brings up
    the failure panel. *)
Theorem handleSubmit_leaves_listing_state :
  forall (reply : Fetch.Reply) (st : State),
    renderThrows reply = false ->
    models (fst (handleSubmit reply st)) = models st
    /\ selectedModel (fst (handleSubmit reply st)) = selectedModel st
    /\ error (fst (handleSubmit reply st)) = error st
    /\ showsErrorPanel (fst (handleSubmit reply st)) = showsErrorPanel st.
Proof.
  intros reply st Hr. destruct (accepts st) eqn:Ha.
  - destruct (handleSubmit_shown reply st Ha Hr) as [answer H]. rewrite H.
    unfold showsErrorPanel; simpl. repeat split.
  - rewrite (handleSubmit_refused reply st Ha). repeat split.
Qed.

Lemma handleSubmit_leaves_listing_state_witness :
  showsErrorPanel
    (fst (handleSubmit (inl (TypeError "Failed to fetch"))
            {| messages := []; input := "hi"; loading := false;
               models := [JString "a"]; selectedModel := JString "a"; error := None |}))
  = false.
Proof.
  destruct (handleSubmit_leaves_listing_state (inl (TypeError "Failed to fetch"))
              {| messages := []; input := "hi"; loading := false;
                 models := [JString "a"]; selectedModel := JString "a"; error := None |}
              eq_refl) as [_ [_ [_ H]]].
  exact H.
Defined.












(** The first message. After a listing whose first model is a string that
    is not empty, a typed input that is not blank is accepted, and its request
    carries that one user entry and the first listed model; so does the
    request for a model picked on the selector instead. *)
Theorem first_message :
  forall (response : Fetch.Response) (data : JSValue) (first : string)
         (rest : list JSValue) (typed : string) (reply : Fetch.Reply),
    Fetch.ok response = true ->
    Fetch.json response = inr data ->
    listedModels data = Some (JString first :: rest) ->
    first <> "" ->
    allWhiteSpace typed = false ->
    snd (handleSubmit reply (setInput typed (fetchModels (inr response) mount)))
    = Some {| chat_messages := [{| role := "user"; content := JString typed |}];
              model := JString first;
              temperature := 7 # 10;
              max_tokens := 1000 |}
    /\ forall picked,
        picked <> "" ->
        snd (handleSubmit reply
               (setInput typed (setSelectedModel picked (fetchModels (inr response) mount))))
        = Some {| chat_messages := [{| role := "user"; content := JString typed |}];
                  model := JString picked;
                  temperature := 7 # 10;
                  max_tokens := 1000 |}.
Proof.
  intros response data first rest typed reply Hok Hj Hl Hf Ht.
  pose proof (readModels_listed response data Hok Hj) as H. rewrite Hl in H.
  assert (E : fetchModels (inr response) mount
              = {| messages := []; input := ""; loading := false;
                   models := JString first :: rest; selectedModel := JString first;
                   error := None |}).
  { unfold fetchModels. now rewrite H. }
  rewrite E. split.
  - set (st := setInput typed _).
    assert (Ha : accepts st = true).
    { rewrite accepts_spec. subst st; simpl. rewrite Ht; simpl.
      now destruct (String.eqb_spec first ""). }
    now rewrite (handleSubmit_request reply st Ha).
  - intros picked Hp. set (st := setInput typed _).
    assert (Ha : accepts st = true).
    { rewrite accepts_spec. subst st; simpl. rewrite Ht; simpl.
      now destruct (String.eqb_spec picked ""). }
    now rewrite (handleSubmit_request reply st Ha).
Qed.

Lemma first_message_witness :
  snd (handleSubmit (inl (TypeError "Failed to fetch"))
         (setInput "hi"
            (fetchModels
               (inr {| Fetch.status := 200; Fetch.text := inr "";
                       Fetch.json := inr (JObject [("available_models",
                                                    JArray [JString "a"; JString "b"])]) |})
               mount)))
  = Some {| chat_messages := [{| role := "user"; content := JString "hi" |}];
            model := JString "a";
            temperature := 7 # 10;
            max_tokens := 1000 |}.
Proof.
  destruct (first_message
              {| Fetch.status := 200; Fetch.text := inr "";
                 Fetch.json := inr (JObject [("available_models",
                                              JArray [JString "a"; JString "b"])]) |}
              (JObject [("available_models", JArray [JString "a"; JString "b"])])
              "a" [JString "b"] "hi" (inl (TypeError "Failed to fetch"))
              eq_refl eq_refl eq_refl) as [H _].
  - discriminate.
  - reflexivity.
  - exact H.
Defined.
